(** * Column-region refinement of [scripts/hebrew_images]

    A shallow embedding of [utils.py] and [validation.py]: the fallback
    estimator, the vertical-range normaliser, the wide-region splitter, the
    width validator and the edge-cut repair, together with the binary64
    arithmetic and the slicing they are written with. *)

From Stdlib Require Import String DecimalString.
From Stdlib Require Import ZArith List Bool Lia.
From Stdlib Require Import Sorted.
From Stdlib Require Import Floats.SpecFloat.
Import ListNotations.
Local Open Scope Z_scope.

(** ** Python floats

    A Python [float] is an IEEE-754 binary64 number.  The operations are the
    reference operations of [SpecFloat] at precision 53 and [emax = 1024];
    they are executable, so every function below can be run on an input. *)

Module PyFloat.

Definition prec : Z := 53.
Definition emax : Z := 1024.

Definition float := spec_float.

(** [float(n)] for an [int]: correctly rounded.  An [int] beyond the
    binary64 range gives an infinity here; Python raises [OverflowError]
    at this point, and so does [to_int] on every value computed from it. *)
Definition of_int (n : Z) : float := binary_normalize prec emax n 0 false.

Definition mul : float -> float -> float := SFmul prec emax.
Definition add : float -> float -> float := SFadd prec emax.
Definition div : float -> float -> float := SFdiv prec emax.

(** [a > b] and [a <= b] *)
Definition gt (a b : float) : bool := SFltb b a.
Definition le (a b : float) : bool := SFleb a b.

(** [int(f)]: truncation toward zero; an infinity or a NaN raises. *)
Definition to_int (f : float) : option Z :=
  match f with
  | S754_zero _ => Some 0
  | S754_finite s m e =>
      Some (cond_Zopp s (if 0 <=? e then Zpos m * 2 ^ e
                         else Zpos m / 2 ^ (- e)))
  | S754_infinity _ | S754_nan => None
  end.

(** The decimal literal [p/q] is the binary64 number nearest to it, which
    is what the correctly rounded quotient of the two integers is. *)
Definition literal (p q : Z) : float := div (of_int p) (of_int q).

(** The literals of the two modules, by mantissa and exponent. *)
Definition f0_02 : float := S754_finite false 5764607523034235 (-58).
Definition f0_25 : float := S754_finite false 4503599627370496 (-54).
Definition f0_28 : float := S754_finite false 5044031582654956 (-54).
Definition f0_3  : float := S754_finite false 5404319552844595 (-54).
Definition f0_4  : float := S754_finite false 7205759403792794 (-54).
Definition f0_6  : float := S754_finite false 5404319552844595 (-53).
Definition f0_85 : float := S754_finite false 7656119366529843 (-53).
Definition f0_93 : float := S754_finite false 8376695306909123 (-53).
Definition f0_05 : float := S754_finite false 7205759403792794 (-57).
Definition f0_08 : float := S754_finite false 5764607523034235 (-56).
Definition f0_12 : float := S754_finite false 8646911284551352 (-56).
Definition f0_18 : float := S754_finite false 6485183463413514 (-55).

(** [int(n * c)] and [int(a + n * c)] for [int]s [n], [a] and a float [c]. *)
Definition int_mul (n : Z) (c : float) : option Z :=
  to_int (mul (of_int n) c).

Definition int_add_mul (a n : Z) (c : float) : option Z :=
  to_int (add (of_int a) (mul (of_int n) c)).

End PyFloat.

Import PyFloat.

Notation "x <- e ;; k" :=
  (match e with Some x => k | None => None end)
  (at level 61, e at next level, right associativity).

(** ** [utils.py] *)

Definition VERTICAL_WIDTH_RANGE : Z * Z := (800, 1200).
Definition VERTICAL_MIN_HEIGHT : Z := 2000.
Definition VERTICAL_X_RANGE : Z * Z := (100, 300).
Definition TITLE_SCAN_HEIGHT : Z := 400.
Definition TITLE_MIN_HEIGHT : Z := 25.
Definition TITLE_MAX_HEIGHT : Z := 220.

(** The dictionary with the keys ["x"], ["y"], ["w"], ["h"]. *)
Record coords := { cx : Z; cy : Z; cw : Z; ch : Z }.

Definition get_fallback_coords (width height : Z) : option coords :=
  x <- int_mul width f0_28 ;;
  w04 <- int_mul width f0_4 ;;
  let w := Z.max 700 (Z.min 1100 w04) in
  Some {| cx := x; cy := 0; cw := w; ch := height |}.

Definition box : Type := Z * Z * Z * Z.

Definition expand_vertical_range (b : box) (height : Z) : option box :=
  let '(x, y, w, h) := b in
  h002 <- int_mul height f0_02 ;;
  let y0_start := Z.max 0 (Z.min 50 h002) in
  h093 <- int_mul height f0_93 ;;
  let y1_end := Z.min (height - 1) h093 in
  let h_expanded := y1_end - y0_start in
  min_height <- int_mul height f0_85 ;;
  if h_expanded <? min_height then
    let y1_end := Z.min (height - 1) (y0_start + min_height) in
    let h_expanded := y1_end - y0_start in
    Some (x, y0_start, w, h_expanded)
  else
    Some (x, y0_start, w, h_expanded).

Definition split_wide_region (x0 x1 width : Z) : option (Z * Z) :=
  let w_original := x1 - x0 in
  split_x <-
    (if x0 <? 100 then
       q <- int_mul width f0_25 ;; Some (Z.max 400 q)
     else
       q <- int_add_mul x0 w_original f0_3 ;; Some (Z.max (x0 + 400) q)) ;;
  let w_second := x1 - split_x in
  let '(split_x, w_second) :=
    if w_second <? 800 then
      let split_x := Z.max x0 (x1 - 1100) in
      let split_x := Z.max 400 split_x in
      (split_x, x1 - split_x)
    else (split_x, w_second) in
  let w_final := Z.min w_second 1100 in
  Some (split_x, w_final).

Definition validate_column_width (w width : Z) : option bool :=
  w06 <- int_mul width f0_6 ;;
  let max_allowed_width := Z.min (snd VERTICAL_WIDTH_RANGE + 200) w06 in
  let min_allowed_width := Z.max 600 (fst VERTICAL_WIDTH_RANGE - 200) in
  Some ((min_allowed_width <=? w) && (w <=? max_allowed_width)).

Definition reject_first_column (x width : Z) : option bool :=
  w005 <- int_mul width f0_05 ;;
  let min_x_threshold := Z.max 50 w005 in
  Some (x <? min_x_threshold).


(** ** numpy arrays and Python slices

    [thresh] is a two-dimensional array of pixel values, kept as its list of
    rows; every row of an array has the same length. *)

Definition ndarray : Type := list (list Z).

(** [a.shape[:2]] *)
Definition shape (a : ndarray) : Z * Z :=
  (Z.of_nat (length a), Z.of_nat (length (hd [] a))).

(** [a.size] *)
Definition size (a : ndarray) : Z := Z.of_nat (length (concat a)).

(** One bound of a slice on an axis of length [n]: a negative bound counts
    from the end, and the bound is clipped to the axis. *)
Definition slice_bound (i n : Z) : Z :=
  if i <? 0 then Z.max (i + n) 0 else Z.min i n.

(** [l[a:b]] *)
Definition slice {A : Type} (l : list A) (a b : Z) : list A :=
  let n := Z.of_nat (length l) in
  let lo := slice_bound a n in
  let hi := slice_bound b n in
  firstn (Z.to_nat (hi - lo)) (skipn (Z.to_nat lo) l).

(** [a[:, lo:hi]] *)
Definition columns (a : ndarray) (lo hi : Z) : ndarray :=
  map (fun row => slice row lo hi) a.

(** [np.sum(a > 0)] *)
Definition count_ink (a : ndarray) : Z :=
  Z.of_nat (length (filter (fun v => 0 <? v) (concat a))).

(** [np.sum(a > 0) / a.size] *)
Definition density (a : ndarray) : float :=
  div (of_int (count_ink a)) (of_int (size a)).

(** [range(start, stop, step)] for a positive [step] *)
Definition py_range (start stop step : Z) : list Z :=
  map (fun i => start + step * Z.of_nat i)
      (seq 0 (Z.to_nat ((stop - start + step - 1) / step))).

(** ** [validation.py] *)

(** The loop of [expand_width_if_text_cut] over the positions that are left,
    with the current [best_end]; both [break]s leave it. *)
Fixpoint walk (thresh : ndarray) (width : Z) (positions : list Z)
         (best_end : Z) : Z :=
  match positions with
  | [] => best_end
  | check_x :: rest =>
      let check_strip := columns thresh check_x (Z.min (check_x + 40) width) in
      if size check_strip =? 0 then best_end
      else
        let strip_density := density check_strip in
        if gt strip_density f0_08 then walk thresh width rest (check_x + 40)
        else best_end
  end.

Definition right_edge_region (thresh : ndarray) (x w : Z) : ndarray :=
  let '(height, width) := shape thresh in
  let right_edge_start := Z.max (x + w - 40) x in
  let right_edge_end := Z.min (x + w) width in
  columns thresh right_edge_start right_edge_end.

Definition expand_start (thresh : ndarray) (x w : Z) : Z :=
  let '(height, width) := shape thresh in Z.min (x + w) (width - 1).

Definition expand_end (thresh : ndarray) (x w : Z) : Z :=
  let '(height, width) := shape thresh in Z.min (x + w + 60) width.

Definition beyond_density (thresh : ndarray) (x w : Z) : float :=
  let beyond_region :=
    columns thresh (expand_start thresh x w) (expand_end thresh x w) in
  if 0 <? size beyond_region then density beyond_region
  else S754_zero false.

Definition expand_width_if_text_cut
           (thresh : ndarray) (x w max_expand : Z) : Z * Z :=
  let '(height, width) := shape thresh in
  if 850 <=? w then (x, w)
  else if size (right_edge_region thresh x w) =? 0 then (x, w)
  else
    let right_edge_density := density (right_edge_region thresh x w) in
    if gt right_edge_density f0_18 then
      if expand_start thresh x w <? expand_end thresh x w then
        if gt (beyond_density thresh x w) f0_12 then
          let expand_full_end := Z.min (x + w + max_expand) width in
          let best_end :=
            walk thresh width
                 (py_range (expand_start thresh x w) expand_full_end 20)
                 (expand_start thresh x w) in
          if expand_start thresh x w + 40 <? best_end then
            let new_w := best_end - x in
            let new_w := Z.min new_w 1100 in
            if w + 40 <? new_w then (x, new_w) else (x, w)
          else (x, w)
        else (x, w)
      else (x, w)
    else (x, w).

(** The default [max_expand=200]. *)
Definition max_expand_default : Z := 200.

(** ** The specification's reading of the same functions *)

Module Spec.

(** The [round] of sections 4.1 and 4.4: the integer nearest to [p/q], a
    tie going to the even neighbour. *)
Definition round (p q : Z) : Z :=
  let f := p / q in
  let r2 := 2 * (p mod q) in
  if r2 <? q then f
  else if q <? r2 then f + 1
  else if Z.even f then f else f + 1.

Definition clamp (v lo hi : Z) : Z := Z.max lo (Z.min hi v).

(** [estimateFallback] as section 4.1 words it. *)
Definition estimateFallback (width height : Z) : coords :=
  {| cx := round (28 * width) 100;
     cy := 0;
     cw := clamp (round (4 * width) 10) 700 1100;
     ch := height |}.

(** [isWidthValid] as section 4.4 words it. *)
Definition isWidthValid (w imageWidth : Z) : bool :=
  (600 <=? w) && (w <=? Z.min 1400 (round (6 * imageWidth) 10)).

(** The box invariant of section 3 for an image of the given size. *)
Definition in_image (imageWidth imageHeight : Z) (b : box) : Prop :=
  let '(x, y, w, h) := b in
  0 <= x /\ 0 <= y /\ x + w <= imageWidth /\ y + h <= imageHeight.

(** The normaliser without its re-extension branch, on exact fractions. *)
Definition normalizeVertical_simple (b : box) (imageHeight : Z) : box :=
  let '(x, y, w, h) := b in
  let y0 := Z.max 0 (Z.min 50 (2 * imageHeight / 100)) in
  let y1 := Z.min (imageHeight - 1) (93 * imageHeight / 100) in
  (x, y0, w, y1 - y0).

(** A strip of the walk passes when it is not empty and more than 8% of it
    is ink. *)
Definition strip_passes (thresh : ndarray) (check_x : Z) : Prop :=
  let strip :=
    columns thresh check_x (Z.min (check_x + 40) (snd (shape thresh))) in
  size strip <> 0 /\ gt (density strip) f0_08 = true.

End Spec.

(** ** Sample pages *)

Module Samples.

(** One row, 300 pixels wide, with ink in the first 170 columns. *)
Definition cut_page : ndarray := [repeat 255 170 ++ repeat 0 130].

(** One row, 300 pixels wide, without ink. *)
Definition blank_page : ndarray := [repeat 0 300].

(** Two rows, 1000 pixels wide, all ink. *)
Definition inked_page : ndarray := [repeat 255 1000; repeat 255 1000].

End Samples.

(** ** Notions for the further properties of the two modules *)

Module Further.

(** A numpy array has rows of one length. *)
Definition rectangular (a : ndarray) : Prop :=
  Forall (fun row => length row = length (hd [] a)) a.

(** The three gates of [expand_width_if_text_cut] that depend on the page;
    the fourth test, [expand_end > expand_start], cannot fail. *)
Definition gates_pass (thresh : ndarray) (x w : Z) : bool :=
  (w <? 850)
  && negb (size (right_edge_region thresh x w) =? 0)
  && gt (density (right_edge_region thresh x w)) f0_18
  && gt (beyond_density thresh x w) f0_12.



End Further.

(** ** [tanaj/converter.py]: Hebrew numerals

    A Python [str] is kept as the bytes of its UTF-8 encoding; appending and
    comparing strings are the same on both sides. *)

Module Converter.

(** [str(num)] *)
Definition str (num : Z) : string := NilZero.string_of_int (Z.to_int num).

Definition units : list string :=
  [""; "א"; "ב"; "ג"; "ד"; "ה"; "ו"; "ז"; "ח"; "ט"]%string.
Definition tens : list string :=
  [""; "י"; "כ"; "ל"; "מ"; "נ"; "ס"; "ע"; "פ"; "צ"]%string.
Definition hundreds : list string :=
  [""; "ק"; "ר"; "ש"; "ת"]%string.

(** [l[i]] for an index of the list *)
Definition item (l : list string) (i : Z) : string :=
  nth (Z.to_nat i) l ""%string.

(** The part of [number_to_hebrew_numeral] below the hundreds: the tens, the
    numbers 10 to 19, and the units, appended to [result]. *)
Definition tens_and_units (result : string) (num : Z) : string :=
  let '(result, num) :=
    if 20 <=? num then
      let tens_digit := num / 10 in
      ((result ++ item tens tens_digit)%string, num mod 10)
    else if 10 <=? num then
      (if num =? 15 then (result ++ "טו")%string
       else if num =? 16 then (result ++ "טז")%string
       else (result ++ ("י" ++ item units (num - 10)))%string, 0)
    else (result, num) in
  if 0 <? num then (result ++ item units num)%string else result.

Section Numerals.

(** [HEBREW_NUMERALS] of [scripts/text/books.py], which is not among the
    sources: the dictionary is taken as its lookup. *)
Variable HEBREW_NUMERALS : Z -> option string.

(** [number_to_hebrew_numeral]; every recursive call takes 400 off [num],
    and [fuel] counts the calls that are left. *)
Fixpoint number_to_hebrew_numeral_fuel (fuel : nat) (num : Z)
  : option string :=
  match fuel with
  | O => None
  | S fuel' =>
      if num <=? 0 then Some (str num)
      else
        match HEBREW_NUMERALS num with
        | Some numeral => Some numeral
        | None =>
            let result := ""%string in
            if 100 <=? num then
              let hundreds_digit := num / 100 in
              if hundreds_digit <=? 4 then
                let result := (result ++ item hundreds hundreds_digit)%string in
                Some (tens_and_units result (num mod 100))
              else
                let result := (result ++ "ת")%string in
                let remainder := num - 400 in
                if 0 <? remainder then
                  match number_to_hebrew_numeral_fuel fuel' remainder with
                  | Some rest => Some (result ++ rest)%string
                  | None => None
                  end
                else Some (tens_and_units result (num mod 100))
            else Some (tens_and_units result num)
        end
  end.

Definition number_to_hebrew_numeral (num : Z) : option string :=
  number_to_hebrew_numeral_fuel (S (Z.to_nat (num / 400))) num.

End Numerals.

(** The number a Hebrew letter stands for, as the docstring lists them. *)
Definition letter_value (letter : string) : Z :=
  (if letter =? "א" then 1 else if letter =? "ב" then 2
   else if letter =? "ג" then 3 else if letter =? "ד" then 4
   else if letter =? "ה" then 5 else if letter =? "ו" then 6
   else if letter =? "ז" then 7 else if letter =? "ח" then 8
   else if letter =? "ט" then 9 else if letter =? "י" then 10
   else if letter =? "כ" then 20 else if letter =? "ל" then 30
   else if letter =? "מ" then 40 else if letter =? "נ" then 50
   else if letter =? "ס" then 60 else if letter =? "ע" then 70
   else if letter =? "פ" then 80 else if letter =? "צ" then 90
   else if letter =? "ק" then 100 else if letter =? "ר" then 200
   else if letter =? "ש" then 300 else if letter =? "ת" then 400
   else 0)%string.

(** The sum of the letters of a numeral; a Hebrew letter takes two bytes. *)
Fixpoint numeral_value (numeral : string) : Z :=
  match numeral with
  | String b1 (String b2 rest) =>
      letter_value (String b1 (String b2 EmptyString)) + numeral_value rest
  | _ => 0
  end.

(** The check that is run on every number below 100: the letters of the
    tens and units add up to the number, and they are whole letters. *)
Definition below_100_ok (r : Z) : bool :=
  (numeral_value (tens_and_units "" r) =? r)
  && Nat.even (String.length (tens_and_units "" r)).

(** A table with two of the entries such a dictionary holds. *)
Definition sample_numerals (num : Z) : option string :=
  if num =? 1 then Some "א"%string
  else if num =? 15 then Some "טו"%string
  else None.

End Converter.

(** ** [tanaj/converter.py]: the conversion of a book *)

Module ConvertBook.

Import Converter.

(** What [convert_book] reads of an object of a chapter file:
    [verse_data.get('verse', 0)], an integer, and
    [verse_data.get('hebrew', '')], a string. *)
Record verse_data := {
  get_verse : Z;
  get_hebrew : string
}.

(** The keys [number] and [text_nikud] of a verse of the output. *)
Record verse := {
  verse_number : Z;
  text_nikud : string
}.

(** The keys [hebrew_letter], [number] and [verses] of a chapter of the
    output. *)
Record chapter := {
  hebrew_letter : string;
  number : Z;
  verses : list verse
}.

Record output_data := {
  book_name : string;
  author : string;
  publication_year : string;
  chapters : list chapter
}.

(** How [convert_book] goes up to the point where the file is written:
    it returns [False], or it hands [output_data] to [json.dump] (and then
    returns [True], or [False] when writing fails); [Unfinished] is the
    numeral that runs out of calls. *)
Inductive outcome :=
| ReturnFalse
| Dump (data : output_data)
| Unfinished.

(** [chapter_verses], a dictionary in insertion order. *)
Definition dict := list (Z * list verse).

Fixpoint dict_get (d : dict) (k : Z) : option (list verse) :=
  match d with
  | [] => None
  | (k', v) :: rest => if k' =? k then Some v else dict_get rest k
  end.

(** [d[k] = v] *)
Fixpoint dict_set (d : dict) (k : Z) (v : list verse) : dict :=
  match d with
  | [] => [(k, v)]
  | (k', v') :: rest =>
      if k' =? k then (k', v) :: rest else (k', v') :: dict_set rest k v
  end.

Definition dict_keys (d : dict) : list Z := map fst d.

Fixpoint insert (x : Z) (l : list Z) : list Z :=
  match l with
  | [] => [x]
  | y :: rest => if x <=? y then x :: l else y :: insert x rest
  end.

(** [sorted] on integers *)
Fixpoint sorted (l : list Z) : list Z :=
  match l with
  | [] => []
  | x :: rest => insert x (sorted rest)
  end.

(** The loop over [chapter_data], with the [verses] kept so far. *)
Fixpoint keep_verses (chapter_data : list verse_data) (verses : list verse)
  : list verse :=
  match chapter_data with
  | [] => verses
  | verse_data :: rest =>
      let verse_num := get_verse verse_data in
      let hebrew_text := get_hebrew verse_data in
      if (0 <? verse_num) && negb (String.eqb hebrew_text "") then
        keep_verses rest
                    (verses ++ [{| verse_number := verse_num;
                                   text_nikud := hebrew_text |}])
      else keep_verses rest verses
  end.

Section Book.

Variable HEBREW_NUMERALS : Z -> option string.

(** [(book_path / f"{i}.json").exists()] *)
Variable chapter_exists : Z -> bool.

(** [json.load] of the chapter file, [None] when it raises. *)
Variable json_load : Z -> option (list verse_data).

Definition load_chapter_data (chapter_num : Z) : option (list verse_data) :=
  if negb (chapter_exists chapter_num) then None else json_load chapter_num.

(** The loop that finds the chapter files; [break] leaves it. *)
Fixpoint find_chapter_files (range : list Z) (chapter_files : list Z)
  : list Z :=
  match range with
  | [] => chapter_files
  | i :: rest =>
      if chapter_exists i then find_chapter_files rest (chapter_files ++ [i])
      else chapter_files
  end.

(** The loop that groups the verses by chapter. *)
Fixpoint group_verses (chapter_files : list Z) (chapter_verses : dict)
  : dict :=
  match chapter_files with
  | [] => chapter_verses
  | chapter_num :: rest =>
      match load_chapter_data chapter_num with
      | None | Some [] => group_verses rest chapter_verses
      | Some chapter_data =>
          match keep_verses chapter_data [] with
          | [] => group_verses rest chapter_verses
          | verses =>
              group_verses rest (dict_set chapter_verses chapter_num verses)
          end
      end
  end.

(** The loop that builds [chapters]. *)
Fixpoint build_chapters (chapter_nums : list Z) (chapter_verses : dict)
         (chapters : list chapter) : option (list chapter) :=
  match chapter_nums with
  | [] => Some chapters
  | chapter_num :: rest =>
      verses <- dict_get chapter_verses chapter_num ;;
      hebrew_letter <- number_to_hebrew_numeral HEBREW_NUMERALS chapter_num ;;
      build_chapters rest chapter_verses
                     (chapters ++ [{| hebrew_letter := hebrew_letter;
                                      number := chapter_num;
                                      verses := verses |}])
  end.

(** [convert_book]; [book_exists] is [book_path.exists()]. *)
Definition convert_book (book_name : string) (book_exists dry_run : bool)
  : outcome :=
  if negb book_exists then ReturnFalse
  else
    let chapter_files := find_chapter_files (py_range 1 200 1) [] in
    match chapter_files with
    | [] => ReturnFalse
    | _ =>
        let chapter_files :=
          if dry_run then slice chapter_files 0 5 else chapter_files in
        let chapter_verses := group_verses chapter_files [] in
        match build_chapters (sorted (dict_keys chapter_verses))
                             chapter_verses [] with
        | None => Unfinished
        | Some [] => ReturnFalse
        | Some chapters =>
            Dump {| book_name := book_name;
                    author := "";
                    publication_year := "";
                    chapters := chapters |}
        end
    end.

(** The verses that the loops keep of a chapter. *)
Definition kept_verses (chapter_num : Z) : list verse :=
  match load_chapter_data chapter_num with
  | Some chapter_data => keep_verses chapter_data []
  | None => []
  end.

Definition has_verses (chapter_num : Z) : bool :=
  match kept_verses chapter_num with
  | [] => false
  | _ => true
  end.

(** The chapters that a run reads: chapter [n] is one of them when the
    files of the chapters 1 to [n] all exist, [n] is below 200, and, in a
    dry run, [n] is at most 5. *)
Definition is_read (dry_run : bool) (n : Z) : Prop :=
  1 <= n <= 199 /\
  (dry_run = true -> n <= 5) /\
  forall i, 1 <= i <= n -> chapter_exists i = true.

End Book.

(** A book directory with the files [1.json] and [2.json], for the sample
    runs: chapter 1 has one verse to keep and one without a number,
    chapter 2 is an empty list. *)
Definition sample_exists (i : Z) : bool := (1 <=? i) && (i <=? 2).

Definition sample_load (i : Z) : option (list verse_data) :=
  if i =? 1 then
    Some [{| get_verse := 1; get_hebrew := "בראשית" |};
          {| get_verse := 0; get_hebrew := "ברא" |}]
  else if i =? 2 then Some []
  else None.

Definition sample_output : output_data :=
  {| book_name := "genesis";
     author := "";
     publication_year := "";
     chapters :=
       [{| hebrew_letter := "א";
           number := 1;
           verses := [{| verse_number := 1; text_nikud := "בראשית" |}] |}]
  |}.

End ConvertBook.

(** ** [soferim/evaluate.py]: the counters of an evaluation *)

Module Evaluate.

(** A verse of the book file: the keys [number] and [text_nikud], and
    [text_nikud_delitzsch] when it is present. *)
Record verse := {
  verse_number : Z;
  text_nikud : string;
  text_nikud_delitzsch : option string
}.

(** A chapter of the book file: the keys [number] and [verses]. *)
Record chapter := {
  chapter_number : Z;
  chapter_verses : list verse
}.

Section Predictor.

(** A correction, as the predictor returns it. *)
Variable correction : Type.

(** [str.strip] *)
Variable strip : string -> string.

(** [predictor.predict_verse_corrections] *)
Variable predict_verse_corrections : string -> list correction.

Record verse_result := {
  book : string;
  chapter_num : Z;
  verse_num : Z;
  original_text : string;
  delitzsch_reference : string;
  corrections : list correction;
  requires_manual_review : bool
}.

(** [results], [total_verses] and [verses_with_corrections] *)
Record counters := {
  results : list verse_result;
  total_verses : Z;
  verses_with_corrections : Z
}.

(** The loop over the verses of a chapter. *)
Fixpoint verses_loop (book_name : string) (chapter_num : Z)
         (verses : list verse) (c : counters) : counters :=
  match verses with
  | [] => c
  | verse :: rest =>
      let verse_num := verse_number verse in
      let verse_text := strip (text_nikud verse) in
      if String.eqb verse_text "" then
        verses_loop book_name chapter_num rest c
      else
        let total_verses := total_verses c + 1 in
        let corrections := predict_verse_corrections verse_text in
        let verse_result :=
          {| book := book_name;
             chapter_num := chapter_num;
             verse_num := verse_num;
             original_text := verse_text;
             delitzsch_reference :=
               match text_nikud_delitzsch verse with
               | Some reference => reference
               | None => ""
               end;
             corrections := corrections;
             requires_manual_review := (0 <? Z.of_nat (length corrections))
          |} in
        let results := results c ++ [verse_result] in
        let verses_with_corrections :=
          if 0 <? Z.of_nat (length corrections)
          then verses_with_corrections c + 1
          else verses_with_corrections c in
        verses_loop book_name chapter_num rest
                    {| results := results;
                       total_verses := total_verses;
                       verses_with_corrections := verses_with_corrections |}
  end.

(** The loop over the chapters. *)
Fixpoint chapters_loop (book_name : string) (chapters : list chapter)
         (c : counters) : counters :=
  match chapters with
  | [] => c
  | chapter :: rest =>
      chapters_loop book_name rest
                    (verses_loop book_name (chapter_number chapter)
                                 (chapter_verses chapter) c)
  end.

(** What [evaluate_book] computes of [output_data], from
    [book_data['chapters']]: the keys [corrections], [total_verses] and
    [verses_with_corrections]. *)
Definition evaluate_book (book_name : string) (chapters : list chapter)
  : counters :=
  chapters_loop book_name chapters
                {| results := [];
                   total_verses := 0;
                   verses_with_corrections := 0 |}.

(** The texts that the loops go through, stripped. *)
Definition stripped_texts (chapters : list chapter) : list string :=
  map (fun verse => strip (text_nikud verse))
      (flat_map chapter_verses chapters).

(** What holds of the counters at every point of the loops. *)
Definition consistent (book_name : string) (c : counters) : Prop :=
  total_verses c = Z.of_nat (length (results c)) /\
  verses_with_corrections c
  = Z.of_nat (length (filter requires_manual_review (results c))) /\
  Forall (fun r => book r = book_name /\
                   original_text r <> ""%string /\
                   corrections r = predict_verse_corrections (original_text r)
                   /\
                   (requires_manual_review r = true <-> corrections r <> []))
         (results c).

End Predictor.

Arguments book {correction}.
Arguments chapter_num {correction}.
Arguments verse_num {correction}.
Arguments original_text {correction}.
Arguments delitzsch_reference {correction}.
Arguments corrections {correction}.
Arguments requires_manual_review {correction}.
Arguments results {correction}.
Arguments total_verses {correction}.
Arguments verses_with_corrections {correction}.
Arguments verses_loop {correction}.
Arguments chapters_loop {correction}.
Arguments evaluate_book {correction}.
Arguments consistent {correction}.

End Evaluate.

(** ** [get_hutter_pdfs.py]: the books to download *)

Module Downloader.

Definition BASE_URL : string :=
  "http://ia601408.us.archive.org/32/items/hutter-polyglot/".

Definition PDF_FILES : list string :=
  ["1-%20Matthew.pdf";
   "2-%20Mark.pdf";
   "3-%20Luke.pdf";
   "4-%20John.pdf";
   "5-%20Acts.pdf";
   "6-%20Romans.pdf";
   "7-%20First%20Corithians.pdf";
   "8-%20Second%20Corinthians.pdf";
   "9%20-%20Galations.pdf";
   "10%20-%20Ephesians.pdf";
   "11%20-%20Phillipians.pdf";
   "12%20-%20Colossians.pdf";
   "13%20-%201st%20Thessalonians.pdf";
   "14%20-%202nd%20Thessalonians.pdf";
   "15%20-%201st%20Timothy.pdf";
   "16%20-%202nd%20Timothy.pdf";
   "17%20-%20Titus.pdf";
   "18%20-%20Philemon.pdf";
   "19%20-%20Hebrews.pdf";
   "20%20-%20James.pdf";
   "21%20-%201st%20Peter.pdf";
   "22%20-%202nd%20Peter.pdf";
   "23%20-%201st%20John.pdf";
   "24%20-%202nd%20John.pdf";
   "25%20-%203rd%20John.pdf";
   "26%20-%20Jude.pdf";
   "27%20-%20Revelation%20-%20missing%20ch.%209%2017-21.pdf"]%string.

Definition BOOK_NAMES : list (string * string) :=
  [("matthew", "1-%20Matthew.pdf");
   ("mark", "2-%20Mark.pdf");
   ("luke", "3-%20Luke.pdf");
   ("john", "4-%20John.pdf");
   ("acts", "5-%20Acts.pdf");
   ("romans", "6-%20Romans.pdf");
   ("corinthians1", "7-%20First%20Corithians.pdf");
   ("corinthians2", "8-%20Second%20Corinthians.pdf");
   ("galatians", "9%20-%20Galations.pdf");
   ("ephesians", "10%20-%20Ephesians.pdf");
   ("philippians", "11%20-%20Phillipians.pdf");
   ("colossians", "12%20-%20Colossians.pdf");
   ("thessalonians1", "13%20-%201st%20Thessalonians.pdf");
   ("thessalonians2", "14%20-%202nd%20Thessalonians.pdf");
   ("timothy1", "15%20-%201st%20Timothy.pdf");
   ("timothy2", "16%20-%202nd%20Timothy.pdf");
   ("titus", "17%20-%20Titus.pdf");
   ("philemon", "18%20-%20Philemon.pdf");
   ("hebrews", "19%20-%20Hebrews.pdf");
   ("james", "20%20-%20James.pdf");
   ("peter1", "21%20-%201st%20Peter.pdf");
   ("peter2", "22%20-%202nd%20Peter.pdf");
   ("john1", "23%20-%201st%20John.pdf");
   ("john2", "24%20-%202nd%20John.pdf");
   ("john3", "25%20-%203rd%20John.pdf");
   ("jude", "26%20-%20Jude.pdf");
   ("revelation", "27%20-%20Revelation%20-%20missing%20ch.%209%2017-21.pdf")]%string.

Definition OUTPUT_NAMES : list (string * string) :=
  [("matthew", "matthew.pdf");
   ("mark", "mark.pdf");
   ("luke", "luke.pdf");
   ("john", "john.pdf");
   ("acts", "acts.pdf");
   ("romans", "romans.pdf");
   ("corinthians1", "corinthians1.pdf");
   ("corinthians2", "corinthians2.pdf");
   ("galatians", "galatians.pdf");
   ("ephesians", "ephesians.pdf");
   ("philippians", "philippians.pdf");
   ("colossians", "colossians.pdf");
   ("thessalonians1", "thessalonians1.pdf");
   ("thessalonians2", "thessalonians2.pdf");
   ("timothy1", "timothy1.pdf");
   ("timothy2", "timothy2.pdf");
   ("titus", "titus.pdf");
   ("philemon", "philemon.pdf");
   ("hebrews", "hebrews.pdf");
   ("james", "james.pdf");
   ("peter1", "peter1.pdf");
   ("peter2", "peter2.pdf");
   ("john1", "john1.pdf");
   ("john2", "john2.pdf");
   ("john3", "john3.pdf");
   ("jude", "jude.pdf");
   ("revelation", "revelation.pdf")]%string.

(** [d[k]], with [None] for a [KeyError], and [k in d] *)
Definition dict_get (d : list (string * string)) (k : string)
  : option string :=
  option_map snd (find (fun kv => String.eqb (fst kv) k) d).

Definition dict_mem (d : list (string * string)) (k : string) : bool :=
  existsb (fun kv => String.eqb (fst kv) k) d.

(** [list(d.keys())] *)
Definition keys (d : list (string * string)) : list string := map fst d.

(** How [validate_books] ends: with the list it returns, or in
    [sys.exit(1)] after it printed the unknown books. *)
Inductive validation :=
| Return (books : list string)
| Exit (invalid_books : list string).

Section Validate.

(** [str.lower] *)
Variable lower : string -> string.

(** The loop of [validate_books] over the names that are left. *)
Fixpoint validate_loop (book_names invalid_books valid_books : list string)
  : validation :=
  match book_names with
  | [] =>
      match invalid_books with
      | [] => Return valid_books
      | _ :: _ => Exit invalid_books
      end
  | book :: rest =>
      if String.eqb (lower book) "all" then Return (keys BOOK_NAMES)
      else if dict_mem BOOK_NAMES (lower book) then
        validate_loop rest invalid_books (valid_books ++ [lower book])
      else validate_loop rest (invalid_books ++ [book]) valid_books
  end.

Definition validate_books (book_names : list string) : validation :=
  validate_loop book_names [] [].

End Validate.

Section Select.

(** [os.path.exists], [os.path.getsize] and [os.path.join] *)
Variable path_exists : string -> bool.
Variable getsize : string -> Z.
Variable path_join : string -> string -> string.

(** The first loop of [download_books]: the files to download and the
    number of files skipped; [None] when a name is in neither table. *)
Fixpoint select_files (output_dir : string)
         (force_redownload resume_existing : bool)
         (book_names : list string)
         (files_to_download : list (string * string)) (skipped : Z)
  : option (list (string * string) * Z) :=
  match book_names with
  | [] => Some (files_to_download, skipped)
  | book_name :: rest =>
      filename <- dict_get BOOK_NAMES book_name ;;
      output_name <- dict_get OUTPUT_NAMES book_name ;;
      let file_path := path_join output_dir output_name in
      if path_exists file_path && negb force_redownload
         && negb resume_existing && (0 <? getsize file_path)
      then select_files output_dir force_redownload resume_existing rest
                        files_to_download (skipped + 1)
      else select_files output_dir force_redownload resume_existing rest
                        (files_to_download ++ [(filename, output_name)])
                        skipped
  end.

End Select.

(** The check that is run on every key of [BOOK_NAMES]: the key is in both
    tables, and its output name is the key followed by [.pdf]. *)
Definition key_ok (k : string) : bool :=
  match dict_get BOOK_NAMES k, dict_get OUTPUT_NAMES k with
  | Some _, Some output_name => String.eqb output_name (k ++ ".pdf")
  | _, _ => false
  end.

(** [str.lower] on the letters A to Z, for the sample runs. *)
Fixpoint ascii_lower (s : string) : string :=
  match s with
  | EmptyString => EmptyString
  | String c rest =>
      let n := Ascii.nat_of_ascii c in
      String (if (65 <=? n)%nat && (n <=? 90)%nat
              then Ascii.ascii_of_nat (n + 32) else c)
             (ascii_lower rest)
  end.

End Downloader.

(** ** [soferim/dataset.py]: padding a batch *)

Module Dataset.

(** A sample of the dataset: the keys [input_tokens], [error_mask],
    [length], [original_text] and [corrected_text]. *)
Record sample := {
  input_tokens : list Z;
  error_mask : list Z;
  sample_length : Z;
  original_text : string;
  corrected_text : string
}.

(** What [collate_fn] returns, before the lists become tensors. *)
Record batch := {
  batch_input_tokens : list (list Z);
  batch_error_mask : list (list Z);
  batch_lengths : list Z;
  batch_original_texts : list string;
  batch_corrected_texts : list string
}.

(** [[x] * n] *)
Definition times {A : Type} (x : A) (n : Z) : list A := repeat x (Z.to_nat n).

(** [collate_fn] of a dataset with the given [max_length] and
    [vocab['<pad>']]. *)
Definition collate_fn (max_length pad : Z) (samples : list sample) : batch :=
  let max_len := max_length in
  let padded_input sample :=
    let input_seq := slice (input_tokens sample) 0 max_len in
    input_seq ++ times pad (max_len - Z.of_nat (length input_seq)) in
  let padded_mask sample :=
    let error_mask := slice (error_mask sample) 0 max_len in
    error_mask ++ times 0 (max_len - Z.of_nat (length error_mask)) in
  {| batch_input_tokens := map padded_input samples;
     batch_error_mask := map padded_mask samples;
     batch_lengths := map (fun sample => Z.min (sample_length sample) max_len)
                          samples;
     batch_original_texts := map original_text samples;
     batch_corrected_texts := map corrected_text samples |}.

End Dataset.

(** ** Notions used in the analysis of binary64 rounding *)

Module RoundingDefs.

Definition b2z (b : bool) : Z := if b then 1 else 0.

(** After [k] single shifts of [m0] the record holds the quotient, and its
    two bits place the remainder against the half way point. *)
Definition shifted (m0 : Z) (k : nat) (mrs : shr_record) : Prop :=
  exists t,
    0 <= shr_m mrs /\
    m0 = shr_m mrs * 2 ^ Z.of_nat k
         + b2z (shr_r mrs) * 2 ^ (Z.of_nat k - 1) + t /\
    0 <= t /\
    (t < 2 ^ (Z.of_nat k - 1)
     \/ (k = 0%nat /\ t = 0 /\ shr_r mrs = false)) /\
    shr_s mrs = negb (t =? 0).

(** [good_literal p q m T] collects what the argument needs of the literal
    [m * 2^-T]: it is a normal number, it is close enough to [p/q] for a
    product that [p/q] makes an integer to round back to that integer, and
    [q] is small against the spacing of the products. *)
Definition good_literal (p q : Z) (m : positive) (T : Z) : bool :=
  (0 <=? p) && (0 <? q) &&
  (2 ^ 52 <=? Zpos m) && (Zpos m <? 2 ^ 53) &&
  (53 <=? T) && (T <=? 64) &&
  (2 * (p * 2 ^ T - Zpos m * q) * 2 ^ 53 <=? q * Zpos m) &&
  (2 * (Zpos m * q - p * 2 ^ T) + q <=? 2 ^ (T - 31)) &&
  (q <=? 2 ^ (T - 31)).

End RoundingDefs.

Import RoundingDefs.


(** ** Binary64 rounding, reduced to integer arithmetic *)

Module Rounding.

Lemma digits2_pos_bounds (p : positive) :
  2 ^ (Zpos (digits2_pos p) - 1) <= Zpos p < 2 ^ Zpos (digits2_pos p).
Proof.
  induction p as [p IH | p IH |]; cbn [digits2_pos].
  - rewrite Pos2Z.inj_succ, Z.pow_succ_r by lia.
    replace (Z.succ (Zpos (digits2_pos p)) - 1)
      with (Z.succ (Zpos (digits2_pos p) - 1)) by lia.
    rewrite Z.pow_succ_r by lia. lia.
  - rewrite Pos2Z.inj_succ, Z.pow_succ_r by lia.
    replace (Z.succ (Zpos (digits2_pos p)) - 1)
      with (Z.succ (Zpos (digits2_pos p) - 1)) by lia.
    rewrite Z.pow_succ_r by lia. lia.
  - cbn. lia.
Qed.

(** The number of binary digits is determined by the two powers of two
    that enclose the number. *)
Lemma digits2_pos_unique (p : positive) (d : Z) :
  2 ^ (d - 1) <= Zpos p < 2 ^ d -> Zpos (digits2_pos p) = d.
Proof.
  intros [Hlo Hhi].
  pose proof (digits2_pos_bounds p) as [Blo Bhi].
  assert (0 < d).
  { destruct (Z.ltb_spec 0 d) as [|Hd]; [assumption|].
    assert (2 ^ d <= 2 ^ 0) by (apply Z.pow_le_mono_r; lia).
    change (2 ^ 0) with 1 in *. lia. }
  destruct (Z.lt_trichotomy (Zpos (digits2_pos p)) d) as [Hlt | [Heq | Hgt]].
  - assert (2 ^ Zpos (digits2_pos p) <= 2 ^ (d - 1))
      by (apply Z.pow_le_mono_r; lia). lia.
  - assumption.
  - assert (2 ^ d <= 2 ^ (Zpos (digits2_pos p) - 1))
      by (apply Z.pow_le_mono_r; lia). lia.
Qed.

(** *** Shifting right with a round bit and a sticky bit *)

Lemma shr_1_nonneg (m : Z) (r s : bool) :
  0 <= m ->
  shr_1 (Build_shr_record m r s)
  = Build_shr_record (m / 2) (Z.odd m) (r || s).
Proof.
  intros Hm. destruct m as [| p | p]; [reflexivity | | lia].
  destruct p as [p | p |]; cbn [shr_1].
  - f_equal. rewrite Pos2Z.inj_xI.
    apply Z.div_unique with 1; lia.
  - f_equal. rewrite Pos2Z.inj_xO.
    apply Z.div_unique with 0; lia.
  - reflexivity.
Qed.

Lemma shifted_step (m0 : Z) (k : nat) (mrs : shr_record) :
  shifted m0 k mrs -> shifted m0 (S k) (shr_1 mrs).
Proof.
  destruct mrs as [m r s]. intros (t & Hm & Heq & Ht0 & Ht & Hs).
  cbn [shr_m shr_r shr_s] in *.
  rewrite shr_1_nonneg by assumption. cbn [shr_m shr_r shr_s].
  exists (b2z r * 2 ^ (Z.of_nat k - 1) + t).
  cbn [shr_m shr_r shr_s]. rewrite Nat2Z.inj_succ.
  replace (Z.succ (Z.of_nat k) - 1) with (Z.of_nat k) by lia.
  rewrite Z.pow_succ_r by lia.
  pose proof (Z.div_mod m 2 ltac:(lia)) as Hdm.
  rewrite Zmod_odd in Hdm.
  assert (Hpow : 0 < 2 ^ Z.of_nat k) by (apply Z.pow_pos_nonneg; lia).
  destruct Ht as [Ht | (-> & -> & ->)].
  - assert (0 <= Z.of_nat k - 1).
    { destruct k; [| lia].
      change (2 ^ (Z.of_nat 0 - 1)) with 0 in Ht. lia. }
    assert (Hk : 2 ^ Z.of_nat k = 2 * 2 ^ (Z.of_nat k - 1)).
    { rewrite <- Z.pow_succ_r by lia. f_equal. lia. }
    assert (0 < 2 ^ (Z.of_nat k - 1)) by (apply Z.pow_pos_nonneg; lia).
    repeat split.
    + apply Z.div_pos; lia.
    + rewrite Heq. rewrite Hdm at 1.
      destruct (Z.odd m); cbn [b2z]; ring.
    + destruct r; cbn [b2z]; lia.
    + left. destruct r; cbn [b2z]; lia.
    + subst s. destruct r; cbn [b2z orb].
      * symmetry. apply negb_true_iff, Z.eqb_neq. lia.
      * rewrite Z.mul_0_l, Z.add_0_l. reflexivity.
  - change (Z.of_nat 0) with 0 in *. change (2 ^ (0 - 1)) with 0 in *.
    change (2 ^ 0) with 1 in *. rewrite Z.mul_0_r in *.
    repeat split.
    + apply Z.div_pos; lia.
    + rewrite Heq. rewrite Hdm at 1.
      destruct (Z.odd m); cbn [b2z]; ring.
    + lia.
    + left. lia.
    + subst s. reflexivity.
Qed.

Lemma iter_pos_nat {A : Type} (f : A -> A) (p : positive) (x : A) :
  iter_pos f p x = Nat.iter (Pos.to_nat p) f x.
Proof.
  revert x. induction p as [p IH | p IH |]; intros x; cbn [iter_pos].
  - rewrite !IH, Pos2Nat.inj_xI.
    replace (S (2 * Pos.to_nat p)) with (Pos.to_nat p + S (Pos.to_nat p))%nat by lia.
    rewrite Nat.iter_add, Nat.iter_succ_r. reflexivity.
  - rewrite !IH, Pos2Nat.inj_xO.
    replace (2 * Pos.to_nat p)%nat with (Pos.to_nat p + Pos.to_nat p)%nat by lia.
    rewrite Nat.iter_add. reflexivity.
  - reflexivity.
Qed.

Lemma shifted_iter (m0 : Z) (k : nat) :
  0 <= m0 ->
  shifted m0 k (Nat.iter k shr_1 (Build_shr_record m0 false false)).
Proof.
  intros Hm0. induction k as [| k IH].
  - exists 0. unfold Nat.iter. cbn [nat_rect shr_m shr_r shr_s b2z].
    change (Z.of_nat 0) with 0. change (2 ^ 0) with 1.
    split; [assumption |]. split; [cbn [b2z]; lia |].
    split; [lia |]. split; [right; auto | reflexivity].
  - cbn [Nat.iter]. apply shifted_step, IH.
Qed.

(** Rounding the shifted record to nearest moves the number by at most
    half of the weight of the last kept bit. *)
Lemma round_shifted (m0 : Z) (k : nat) (mrs : shr_record) :
  shifted m0 k mrs ->
  let M := round_nearest_even (shr_m mrs) (loc_of_shr_record mrs) in
  0 <= M /\ 2 * Z.abs (M * 2 ^ Z.of_nat k - m0) <= 2 ^ Z.of_nat k.
Proof.
  destruct mrs as [m r s]. intros (t & Hm & Heq & Ht0 & Ht & Hs).
  cbn [shr_m shr_r shr_s] in *.
  assert (Hpow : 0 < 2 ^ Z.of_nat k) by (apply Z.pow_pos_nonneg; lia).
  destruct Ht as [Ht | (-> & -> & ->)].
  - assert (0 <= Z.of_nat k - 1).
    { destruct k; [| lia].
      change (2 ^ (Z.of_nat 0 - 1)) with 0 in Ht. lia. }
    assert (Hk : 2 ^ Z.of_nat k = 2 * 2 ^ (Z.of_nat k - 1)).
    { rewrite <- Z.pow_succ_r by lia. f_equal. lia. }
    assert (Hs' : s = true -> 0 < t).
    { intros ->. symmetry in Hs. apply negb_true_iff, Z.eqb_neq in Hs. lia. }
    assert (Hs'' : s = false -> t = 0).
    { intros ->. symmetry in Hs. apply negb_false_iff, Z.eqb_eq in Hs. lia. }
    destruct r, s; cbn [loc_of_shr_record round_nearest_even b2z] in *;
      cbv zeta;
      try specialize (Hs' eq_refl); try specialize (Hs'' eq_refl);
      try destruct (Z.even m); lia.
  - subst s. change (negb (0 =? 0)) with false.
    cbn [loc_of_shr_record round_nearest_even b2z] in *. cbv zeta.
    change (Z.of_nat 0) with 0 in *. change (2 ^ 0) with 1 in *. lia.
Qed.

(** [shr] on an exact record: zero or more single shifts. *)
Lemma shr_rounds (m0 e k : Z) :
  0 <= m0 -> 0 <= k ->
  exists mrs,
    shr (Build_shr_record m0 false false) e k = (mrs, e + k) /\
    let M := round_nearest_even (shr_m mrs) (loc_of_shr_record mrs) in
    0 <= M /\ 2 * Z.abs (M * 2 ^ k - m0) <= 2 ^ k.
Proof.
  intros Hm0 Hk. destruct k as [| p | p]; [| | lia].
  - exists (Build_shr_record m0 false false). split.
    + cbn [shr]. f_equal. lia.
    + cbv zeta. cbn [shr_m loc_of_shr_record round_nearest_even].
      change (2 ^ 0) with 1. lia.
  - exists (iter_pos shr_1 p (Build_shr_record m0 false false)).
    split; [reflexivity |].
    rewrite iter_pos_nat. rewrite <- (positive_nat_Z p).
    apply round_shifted, shifted_iter. assumption.
Qed.

Lemma fexp_normal (e : Z) :
  -1074 <= e - 53 -> fexp prec emax e = e - 53.
Proof.
  intros H. unfold fexp, emin, prec, emax. lia.
Qed.

(** [binary_round_aux] away from the subnormal and the overflow range: the
    result is a normal number within half a unit in the last place. *)
Lemma binary_round_aux_normal (sx : bool) (mx ex d : Z) :
  2 ^ (d - 1) <= mx < 2 ^ d -> 53 <= d ->
  -1074 <= ex + d - 53 -> ex + d - 53 < 971 ->
  exists (M : positive) (E : Z),
    binary_round_aux prec emax sx mx ex loc_Exact = S754_finite sx M E /\
    2 ^ 52 <= Zpos M < 2 ^ 53 /\
    ex + (d - 53) <= E <= ex + (d - 53) + 1 /\
    2 * Z.abs (Zpos M * 2 ^ (E - ex) - mx) <= 2 ^ (d - 53).
Proof.
  intros [Hlo Hhi] Hd Hmin Hmax.
  assert (Hk : 0 < 2 ^ (d - 53)) by (apply Z.pow_pos_nonneg; lia).
  assert (Hd1 : 2 ^ (d - 1) = 2 ^ 52 * 2 ^ (d - 53)).
  { rewrite <- Z.pow_add_r by lia. f_equal. lia. }
  assert (Hd2 : 2 ^ d = 2 ^ 53 * 2 ^ (d - 53)).
  { rewrite <- Z.pow_add_r by lia. f_equal. lia. }
  destruct mx as [| p | p]; [lia | | lia].
  unfold binary_round_aux, shr_fexp. cbn [Zdigits2 shr_record_of_loc].
  rewrite (digits2_pos_unique p d) by (split; assumption).
  rewrite fexp_normal by lia.
  replace (d + ex - 53 - ex) with (d - 53) by lia.
  destruct (shr_rounds (Zpos p) ex (d - 53)) as (mrs & -> & HM0 & HM);
    [lia | lia |].
  set (M1 := round_nearest_even (shr_m mrs) (loc_of_shr_record mrs)) in *.
  assert (HM1 : 2 ^ 52 <= M1 <= 2 ^ 53).
  { change (2 ^ 52) with 4503599627370496 in *.
    change (2 ^ 53) with 9007199254740992 in *.
    split; nia. }
  destruct (Z.eq_dec M1 (2 ^ 53)) as [Heq | Hne].
  - change (2 ^ 53) with 9007199254740992 in Heq. rewrite Heq in *.
    change (Zdigits2 9007199254740992) with 54.
    rewrite fexp_normal by lia.
    replace (54 + (ex + (d - 53)) - 53 - (ex + (d - 53))) with 1 by lia.
    cbn [shr iter_pos shr_1 shr_m].
    replace (ex + (d - 53) + 1 <=? emax - prec) with true
      by (symmetry; apply Z.leb_le; unfold emax, prec; lia).
    eexists. eexists. split; [reflexivity |].
    split; [lia |]. split; [lia |].
    replace (ex + (d - 53) + 1 - ex) with (Z.succ (d - 53)) by lia.
    rewrite Z.pow_succ_r by lia. lia.
  - destruct M1 as [| q | q] eqn:EM; [lia | | lia].
    cbn [Zdigits2].
    rewrite (digits2_pos_unique q 53) by (change (53 - 1) with 52; lia).
    rewrite fexp_normal by lia.
    replace (53 + (ex + (d - 53)) - 53 - (ex + (d - 53))) with 0 by lia.
    cbn [shr shr_m].
    replace (ex + (d - 53) <=? emax - prec) with true
      by (symmetry; apply Z.leb_le; unfold emax, prec; lia).
    exists q, (ex + (d - 53)). split; [reflexivity |].
    split; [lia |]. split; [lia |].
    replace (ex + (d - 53) - ex) with (d - 53) by lia. assumption.
Qed.

Lemma iter_xO_pow (p s : positive) :
  Zpos (Pos.iter xO p s) = Zpos p * 2 ^ Zpos s.
Proof.
  induction s as [| s IH] using Pos.peano_ind.
  - cbn [Pos.iter]. rewrite Pos2Z.inj_xO. change (2 ^ 1) with 2. lia.
  - rewrite Pos.iter_succ, Pos2Z.inj_xO, IH, Pos2Z.inj_succ.
    rewrite Z.pow_succ_r by lia. ring.
Qed.

(** An integer below [2^53] converts exactly; the mantissa is the integer
    shifted left until it has 53 digits. *)
Lemma of_int_pos (w : Z) :
  0 < w < 2 ^ 53 ->
  exists (M : positive) (j : Z),
    of_int w = S754_finite false M (- j) /\
    0 <= j <= 52 /\ Zpos M = w * 2 ^ j /\ 2 ^ 52 <= Zpos M < 2 ^ 53.
Proof.
  intros [Hw0 Hw]. destruct w as [| p | p]; [lia | | lia].
  unfold of_int, binary_normalize, binary_round.
  pose proof (digits2_pos_bounds p) as [Blo Bhi].
  set (d := Zpos (digits2_pos p)) in *.
  assert (Hd0 : 0 < d) by (unfold d; lia).
  assert (Hd : d <= 53).
  { destruct (Z.leb_spec d 53) as [| Hgt]; [assumption |].
    assert (2 ^ 53 <= 2 ^ (d - 1)) by (apply Z.pow_le_mono_r; lia). lia. }
  rewrite fexp_normal by lia.
  assert (Hal : exists mz : positive,
             shl_align p 0 (d + 0 - 53) = (mz, d - 53) /\
             Zpos mz = Zpos p * 2 ^ (53 - d)).
  { unfold shl_align. destruct (d + 0 - 53 - 0) as [| s | s] eqn:Es.
    - exists p. split; [f_equal; lia |].
      replace (53 - d) with 0 by lia. change (2 ^ 0) with 1. lia.
    - lia.
    - exists (Pos.iter xO p s). split; [f_equal; lia |].
      rewrite iter_xO_pow. f_equal. f_equal. lia. }
  destruct Hal as (mz & -> & Hmz).
  assert (Hp : 2 ^ 53 = 2 ^ d * 2 ^ (53 - d)).
  { rewrite <- Z.pow_add_r by lia. f_equal. lia. }
  assert (Hp' : 2 ^ 52 = 2 ^ (d - 1) * 2 ^ (53 - d)).
  { rewrite <- Z.pow_add_r by lia. f_equal. lia. }
  assert (Hj : 0 < 2 ^ (53 - d)) by (apply Z.pow_pos_nonneg; lia).
  assert (Hmz' : 2 ^ 52 <= Zpos mz < 2 ^ 53).
  { rewrite Hmz, Hp, Hp'. split.
    - apply Z.mul_le_mono_nonneg_r; lia.
    - apply Z.mul_lt_mono_pos_r; lia. }
  destruct (binary_round_aux_normal false (Zpos mz) (d - 53) 53)
    as (M & E & -> & HM & HE & HR);
    [change (53 - 1) with 52; lia | lia | lia | lia |].
  change (2 ^ (53 - 53)) with 1 in HR.
  assert (E = d - 53).
  { destruct (Z.eq_dec E (d - 53)) as [| Hne]; [assumption |].
    replace (E - (d - 53)) with 1 in HR by lia.
    change (2 ^ 1) with 2 in HR. lia. }
  subst E. replace (d - 53 - (d - 53)) with 0 in HR by lia.
  change (2 ^ 0) with 1 in HR.
  exists M, (53 - d). split; [f_equal; lia |].
  split; [lia |]. split; [| assumption].
  rewrite <- Hmz. lia.
Qed.

(** [int()] of a finite float whose value is [R * 2^ex] with [ex <= 0]. *)
Lemma to_int_finite (s : bool) (M : positive) (E ex : Z) :
  ex <= 0 -> ex <= E ->
  to_int (S754_finite s M E)
  = Some (cond_Zopp s (Zpos M * 2 ^ (E - ex) / 2 ^ (- ex))).
Proof.
  intros Hex HE. unfold to_int. f_equal. f_equal.
  destruct (Z.leb_spec 0 E) as [H0 | H0].
  - replace (E - ex) with (E + - ex) by lia.
    rewrite Z.pow_add_r by lia.
    rewrite Z.mul_assoc, Z.div_mul; [reflexivity |].
    apply Z.pow_nonzero; lia.
  - replace (- ex) with ((- E) + (E - ex)) at 1 by lia.
    rewrite Z.pow_add_r by lia.
    rewrite Z.div_mul_cancel_r; [reflexivity | |];
      apply Z.pow_nonzero; lia.
Qed.

(** *** The integer argument behind [int(n * c)]

    [X] is the exact product of the two mantissas, [R] the rounded one, [G]
    the spacing of the floats around it and [S] the weight of the units
    digit.  When the literal [c / P] is close enough to [p / q], truncating
    [R / S] gives the integer part of [p * w / q]. *)
Lemma round_floor_core (p q c P w J G R Q Y' K : Z) :
  0 <= p -> 0 < q -> 0 < c -> 0 < P -> 0 < w -> 0 < J -> 0 < G -> 0 < K ->
  w * J < K -> G <= K -> (w * J) * c < K * G ->
  2 * (p * P - c * q) * K <= q * c ->
  2 * K * (c * q - p * P) + q * K < 2 * (J * P) ->
  q * K < 2 * (J * P) ->
  2 * Z.abs (R - (w * J) * c) <= G ->
  R = Q * G -> J * P = Y' * G ->
  R / (J * P) = p * w / q.
Proof.
  intros Hp Hq Hc HP Hw HJ HG HK HWK HGK HXK Hdn Hup Hup0 HR HRQ HSY.
  set (W := w * J) in *. set (S := J * P) in *. set (N := p * w / q).
  assert (HW : 0 < W) by (apply Z.mul_pos_pos; assumption).
  assert (HS : 0 < S) by (apply Z.mul_pos_pos; assumption).
  assert (HN : q * N <= p * w < q * N + q).
  { pose proof (Z.div_mod (p * w) q ltac:(lia)) as Hdm.
    pose proof (Z.mod_pos_bound (p * w) q Hq) as Hr.
    fold N in Hdm. lia. }
  assert (HN0 : 0 <= N) by (apply Z.div_pos; [apply Z.mul_nonneg_nonneg |]; lia).
  assert (HpwS : (p * w) * S = W * (p * P)) by (unfold W, S; ring).
  assert (HlowS : (q * N) * S <= (p * w) * S)
    by (apply Z.mul_le_mono_nonneg_r; lia).
  assert (HuppS : (p * w) * S <= (q * N + q - 1) * S)
    by (apply Z.mul_le_mono_nonneg_r; lia).
  assert (HqG : 0 < q * G) by (apply Z.mul_pos_pos; assumption).
  assert (HqGK : q * G <= q * K) by (apply Z.mul_le_mono_nonneg_l; lia).
  (* the exact product lies strictly inside the half-open window *)
  assert (HL : 2 * (q * N * S) < 2 * (W * (c * q)) + q * G).
  { destruct (Z.le_gt_cases (p * P) (c * q)) as [Hcq | Hcq].
    - assert (W * (p * P) <= W * (c * q))
        by (apply Z.mul_le_mono_nonneg_l; lia).
      lia.
    - assert (H1 : W * (2 * (p * P - c * q) * K) <= W * (q * c))
        by (apply Z.mul_le_mono_nonneg_l; lia).
      assert (H2 : q * (W * c) < q * (K * G))
        by (apply Z.mul_lt_mono_pos_l; assumption).
      assert (H3 : (2 * (W * (p * P - c * q))) * K < (q * G) * K).
      { replace ((2 * (W * (p * P - c * q))) * K)
          with (W * (2 * (p * P - c * q) * K)) by ring.
        replace ((q * G) * K) with (q * (K * G)) by ring.
        replace (W * (q * c)) with (q * (W * c)) in H1 by ring.
        lia. }
      apply Z.mul_lt_mono_pos_r in H3; [| assumption].
      replace (W * (p * P - c * q)) with (W * (p * P) - W * (c * q)) in H3
        by ring.
      lia. }
  assert (HU : 2 * (W * (c * q)) + q * G < 2 * ((q * N + q) * S)).
  { assert (H1 : 2 * (W * (c * q - p * P)) + q * G < 2 * S).
    { destruct (Z.le_gt_cases (p * P) (c * q)) as [Hcq | Hcq].
      - assert (W * (c * q - p * P) <= K * (c * q - p * P))
          by (apply Z.mul_le_mono_nonneg_r; lia).
        lia.
      - assert (W * (c * q - p * P) <= 0)
          by (apply Z.mul_nonneg_nonpos; lia).
        lia. }
    replace (W * (c * q - p * P)) with (W * (c * q) - W * (p * P)) in H1
      by ring.
    replace ((q * N + q - 1) * S) with ((q * N + q) * S - S) in HuppS
      by ring.
    lia. }
  (* the rounded product stays inside the closed-open window *)
  assert (HRlo : N * S <= R).
  { assert (H1 : q * (2 * (N * S)) < q * (2 * (W * c) + G)).
    { replace (q * (2 * (N * S))) with (2 * (q * N * S)) by ring.
      replace (q * (2 * (W * c) + G)) with (2 * (W * (c * q)) + q * G)
        by ring.
      assumption. }
    apply Z.mul_lt_mono_pos_l in H1; [| assumption].
    assert (H2 : (N * Y' - 1) * G < Q * G).
    { replace ((N * Y' - 1) * G) with (N * (Y' * G) - G) by ring.
      rewrite <- HSY, <- HRQ. lia. }
    apply Z.mul_lt_mono_pos_r in H2; [| assumption].
    assert (N * Y' * G <= Q * G)
      by (apply Z.mul_le_mono_nonneg_r; lia).
    rewrite HRQ. replace (N * S) with (N * Y' * G); [assumption |].
    rewrite HSY. ring. }
  assert (HRhi : R < (N + 1) * S).
  { assert (H1 : q * (2 * (W * c) + G) < q * (2 * ((N + 1) * S))).
    { replace (q * (2 * ((N + 1) * S))) with (2 * ((q * N + q) * S))
        by ring.
      replace (q * (2 * (W * c) + G)) with (2 * (W * (c * q)) + q * G)
        by ring.
      assumption. }
    apply Z.mul_lt_mono_pos_l in H1; [| assumption].
    lia. }
  symmetry. apply Z.div_unique with (R - N * S); [| ring].
  left. replace ((N + 1) * S) with (N * S + S) in HRhi by ring. lia.
Qed.

Lemma int_mul_pos (p q : Z) (m : positive) (T w : Z) :
  good_literal p q m T = true ->
  0 < w < 2 ^ 31 ->
  int_mul w (S754_finite false m (- T)) = Some (p * w / q).
Proof.
  unfold good_literal. intros Hgood [Hw0 Hw].
  repeat (apply andb_prop in Hgood; destruct Hgood as [Hgood ?]).
  repeat match goal with
         | H : (_ <=? _) = true |- _ => apply Z.leb_le in H
         | H : (_ <? _) = true |- _ => apply Z.ltb_lt in H
         end.
  rename H into Hq31, H0 into Hup, H1 into Hdn, H2 into HT64, H3 into HT,
    H4 into Hm53, H5 into Hm52, H6 into Hq, Hgood into Hp.
  destruct (of_int_pos w) as (Mw & j & EW & Hj & HMw & HMw').
  { split; [assumption |].
    apply Z.lt_trans with (2 ^ 31); [assumption |].
    apply Z.pow_lt_mono_r; lia. }
  unfold int_mul. rewrite EW. unfold mul, SFmul. cbn [xorb].
  rewrite Pos2Z.inj_mul, HMw.
  rewrite HMw in HMw'. clear HMw EW Mw.
  set (c := Zpos m) in *. set (J := 2 ^ j) in *. set (P := 2 ^ T) in *.
  set (K := 2 ^ 53) in *.
  assert (HJ : 0 < J) by (apply Z.pow_pos_nonneg; lia).
  assert (HP : 0 < P) by (apply Z.pow_pos_nonneg; lia).
  assert (HK : 0 < K) by (apply Z.pow_pos_nonneg; lia).
  assert (HK2 : K * K = 2 ^ 106) by reflexivity.
  assert (HK1 : 2 ^ 52 * 2 ^ 52 = 2 ^ 104) by reflexivity.
  (* number of digits of the product *)
  assert (Hd : exists d, (d = 105 \/ d = 106) /\
                         2 ^ (d - 1) <= (w * J) * c < 2 ^ d).
  { destruct (Z.lt_ge_cases ((w * J) * c) (2 ^ 105)) as [Hlt | Hge].
    - exists 105. split; [auto |]. split; [| assumption].
      change (105 - 1) with 104. rewrite <- HK1.
      apply Z.mul_le_mono_nonneg; lia.
    - exists 106. split; [auto |]. split; [assumption |].
      rewrite <- HK2. apply Z.mul_lt_mono_nonneg; lia. }
  destruct Hd as (d & Hd & Hprod).
  destruct (binary_round_aux_normal false ((w * J) * c) (- j + - T) d)
    as (M & E & -> & HM & HE & HR); [assumption | lia | lia | lia |].
  rewrite (to_int_finite false M E (- j + - T)) by lia.
  cbn [cond_Zopp]. f_equal.
  replace (- (- j + - T)) with (j + T) by lia.
  rewrite Z.pow_add_r by lia. fold J. fold P.
  set (G := 2 ^ (d - 53)) in *.
  assert (HG : 0 < G) by (apply Z.pow_pos_nonneg; lia).
  assert (HG53 : G <= K) by (apply Z.pow_le_mono_r; lia).
  assert (Hprod' : (w * J) * c < K * G).
  { unfold K, G. rewrite <- Z.pow_add_r by lia.
    replace (53 + (d - 53)) with d by lia. apply Hprod. }
  assert (HJ21 : 2 ^ 21 < J).
  { destruct (Z.lt_ge_cases (2 ^ 21) J) as [| HJle]; [assumption |].
    assert (w * J <= (2 ^ 31 - 1) * 2 ^ 21)
      by (apply Z.mul_le_mono_nonneg; lia).
    assert ((2 ^ 31 - 1) * 2 ^ 21 < 2 ^ 52) by reflexivity. lia. }
  assert (HP31 : 2 ^ 22 * P = K * 2 ^ (T - 31)).
  { unfold P, K. rewrite <- !Z.pow_add_r by lia. f_equal. lia. }
  assert (HJP : 2 ^ 22 * P < 2 * (J * P)).
  { replace (2 * (J * P)) with ((2 * J) * P) by ring.
    apply Z.mul_lt_mono_pos_r; [assumption |].
    change (2 ^ 22) with (2 * 2 ^ 21). lia. }
  apply (round_floor_core p q c P w J G _
           (Zpos M * 2 ^ (E - (- j + - T) - (d - 53)))
           (2 ^ (j + T - (d - 53))) K);
    try assumption; try lia.
  - unfold G. rewrite <- Z.mul_assoc, <- Z.pow_add_r by lia.
    f_equal. f_equal. lia.
  - unfold J, P, G. rewrite <- !Z.pow_add_r by lia. f_equal. lia.
Qed.

(** *** Signs and zero *)

Lemma binary_round_aux_opp (s : bool) (mx ex : Z) (l : location) :
  binary_round_aux prec emax (negb s) mx ex l
  = SFopp (binary_round_aux prec emax s mx ex l).
Proof.
  unfold binary_round_aux.
  destruct (shr_fexp prec emax mx ex l) as [mrs' e'].
  destruct (shr_fexp prec emax _ e' loc_Exact) as [mrs'' e''].
  destruct (shr_m mrs'') as [| m | m]; cbn [SFopp]; try reflexivity.
  destruct (e'' <=? emax - prec); reflexivity.
Qed.

Lemma of_int_opp (n : Z) : of_int (- n) = SFopp (of_int n) \/ n = 0.
Proof.
  destruct n as [| p | p]; [right; reflexivity | left | left];
    cbn [Z.opp]; unfold of_int, binary_normalize, binary_round;
    destruct (shl_align p 0 _) as [mz ez].
  - apply (binary_round_aux_opp false).
  - apply (binary_round_aux_opp true).
Qed.

Lemma mul_opp_l (a : float) (m : positive) (e : Z) :
  mul (SFopp a) (S754_finite false m e)
  = SFopp (mul a (S754_finite false m e)).
Proof.
  destruct a as [s | s | | s ma ea]; cbn [SFopp mul SFmul]; unfold mul, SFmul;
    try (destruct s; reflexivity); try reflexivity.
  rewrite !xorb_false_r. apply binary_round_aux_opp.
Qed.

Lemma to_int_opp (f : float) :
  to_int (SFopp f) = option_map Z.opp (to_int f).
Proof.
  destruct f as [s | s | | s m e]; cbn [SFopp to_int option_map];
    try reflexivity.
  f_equal. destruct s; cbn [negb cond_Zopp]; lia.
Qed.

Lemma int_mul_opp (n : Z) (m : positive) (e : Z) :
  int_mul (- n) (S754_finite false m e)
  = option_map Z.opp (int_mul n (S754_finite false m e)).
Proof.
  unfold int_mul. destruct (of_int_opp n) as [-> | ->].
  - rewrite mul_opp_l. apply to_int_opp.
  - reflexivity.
Qed.

(** [int(n * c)] truncates the exact product [p * n / q] toward zero, for
    every [n] that is the size of an image. *)
Theorem int_mul_quot (p q : Z) (m : positive) (T n : Z) :
  good_literal p q m T = true ->
  Z.abs n < 2 ^ 31 ->
  int_mul n (S754_finite false m (- T)) = Some (Z.quot (p * n) q).
Proof.
  intros Hgood Hn.
  assert (Hpq : 0 <= p /\ 0 < q).
  { unfold good_literal in Hgood.
    repeat (apply andb_prop in Hgood; destruct Hgood as [Hgood ?]).
    split; [apply Z.leb_le | apply Z.ltb_lt]; assumption. }
  destruct Hpq as [Hp Hq].
  destruct (Z.lt_trichotomy n 0) as [Hneg | [-> | Hpos]].
  - replace n with (- (- n)) at 1 by lia.
    rewrite int_mul_opp, (int_mul_pos p q m T (- n) Hgood) by lia.
    cbn [option_map]. f_equal.
    replace (p * n) with (- (p * - n)) by ring.
    rewrite Z.quot_opp_l by lia. f_equal.
    symmetry. apply Z.quot_div_nonneg; [| assumption].
    apply Z.mul_nonneg_nonneg; lia.
  - rewrite Z.mul_0_r. reflexivity.
  - rewrite (int_mul_pos p q m T n Hgood) by lia. f_equal.
    symmetry. apply Z.quot_div_nonneg; [| assumption].
    apply Z.mul_nonneg_nonneg; lia.
Qed.

Corollary int_mul_div (p q : Z) (m : positive) (T n : Z) :
  good_literal p q m T = true ->
  0 <= n < 2 ^ 31 ->
  int_mul n (S754_finite false m (- T)) = Some (p * n / q).
Proof.
  intros Hgood Hn. rewrite (int_mul_quot p q m T n Hgood) by lia.
  f_equal. apply Z.quot_div_nonneg; [| ].
  - apply Z.mul_nonneg_nonneg; [| lia].
    unfold good_literal in Hgood.
    repeat (apply andb_prop in Hgood; destruct Hgood as [Hgood ?]).
    apply Z.leb_le; assumption.
  - unfold good_literal in Hgood.
    repeat (apply andb_prop in Hgood; destruct Hgood as [Hgood ?]).
    apply Z.ltb_lt; assumption.
Qed.

(** *** Sums: [int(a + n * c)] is defined *)

Lemma mul_normal (Ma m : positive) (Ea Ec : Z) :
  2 ^ 52 <= Zpos Ma < 2 ^ 53 -> 2 ^ 52 <= Zpos m < 2 ^ 53 ->
  -500 <= Ea + Ec <= 500 ->
  exists (M : positive) (E : Z),
    mul (S754_finite false Ma Ea) (S754_finite false m Ec)
    = S754_finite false M E /\
    2 ^ 52 <= Zpos M < 2 ^ 53 /\ Ea + Ec + 52 <= E <= Ea + Ec + 54.
Proof.
  intros Ha Hm He. unfold mul, SFmul. cbn [xorb].
  rewrite Pos2Z.inj_mul.
  assert (HK2 : 2 ^ 53 * 2 ^ 53 = 2 ^ 106) by reflexivity.
  assert (HK1 : 2 ^ 52 * 2 ^ 52 = 2 ^ 104) by reflexivity.
  assert (Hd : exists d, (d = 105 \/ d = 106) /\
                         2 ^ (d - 1) <= Zpos Ma * Zpos m < 2 ^ d).
  { destruct (Z.lt_ge_cases (Zpos Ma * Zpos m) (2 ^ 105)) as [Hlt | Hge].
    - exists 105. split; [auto |]. split; [| assumption].
      change (105 - 1) with 104. rewrite <- HK1.
      apply Z.mul_le_mono_nonneg; lia.
    - exists 106. split; [auto |]. split; [assumption |].
      rewrite <- HK2. apply Z.mul_lt_mono_nonneg; lia. }
  destruct Hd as (d & Hd & Hprod).
  destruct (binary_round_aux_normal false (Zpos Ma * Zpos m) (Ea + Ec) d)
    as (M & E & -> & HM & HE & _); [assumption | lia | lia | lia |].
  exists M, E. split; [reflexivity |]. split; [assumption | lia].
Qed.

Lemma shl_align_fst (mx : positive) (ex ez : Z) :
  ez <= ex ->
  Zpos (fst (shl_align mx ex ez)) = Zpos mx * 2 ^ (ex - ez).
Proof.
  intros Hle. unfold shl_align.
  destruct (ez - ex) as [| d | d] eqn:Ed; cbn [fst].
  - replace (ex - ez) with 0 by lia. change (2 ^ 0) with 1. lia.
  - lia.
  - rewrite iter_xO_pow. f_equal. f_equal. lia.
Qed.

Lemma add_normal (Ma Mb : positive) (Ea Eb : Z) :
  2 ^ 52 <= Zpos Ma < 2 ^ 53 -> 2 ^ 52 <= Zpos Mb < 2 ^ 53 ->
  -500 <= Ea <= 500 -> -500 <= Eb <= 500 ->
  exists (M : positive) (E : Z),
    add (S754_finite false Ma Ea) (S754_finite false Mb Eb)
    = S754_finite false M E.
Proof.
  intros Ha Hb HEa HEb. unfold add, SFadd. cbn [cond_Zopp].
  set (ez := Z.min Ea Eb).
  pose proof (shl_align_fst Ma Ea ez ltac:(unfold ez; lia)) as HA.
  pose proof (shl_align_fst Mb Eb ez ltac:(unfold ez; lia)) as HB.
  set (a' := fst (shl_align Ma Ea ez)) in *.
  set (b' := fst (shl_align Mb Eb ez)) in *.
  change (Zpos a' + Zpos b') with (Zpos (a' + b')).
  unfold binary_normalize, binary_round.
  pose proof (digits2_pos_bounds (a' + b')) as [Blo Bhi].
  set (d := Zpos (digits2_pos (a' + b'))) in *.
  rewrite Pos2Z.inj_add, HA, HB in Blo, Bhi.
  assert (Hpa : 1 <= 2 ^ (Ea - ez) <= 2 ^ (Z.max Ea Eb - ez)).
  { split.
    - change 1 with (2 ^ 0). apply Z.pow_le_mono_r; unfold ez; lia.
    - apply Z.pow_le_mono_r; unfold ez; lia. }
  assert (Hpb : 1 <= 2 ^ (Eb - ez) <= 2 ^ (Z.max Ea Eb - ez)).
  { split.
    - change 1 with (2 ^ 0). apply Z.pow_le_mono_r; unfold ez; lia.
    - apply Z.pow_le_mono_r; unfold ez; lia. }
  set (U := 2 ^ (Z.max Ea Eb - ez)) in *.
  assert (HlowA : 2 ^ 52 * 1 <= Zpos Ma * 2 ^ (Ea - ez))
    by (apply Z.mul_le_mono_nonneg; lia).
  assert (HlowB : 0 <= Zpos Mb * 2 ^ (Eb - ez))
    by (apply Z.mul_nonneg_nonneg; lia).
  assert (HuppA : Zpos Ma * 2 ^ (Ea - ez) < 2 ^ 53 * U).
  { apply Z.le_lt_trans with (Zpos Ma * U).
    - apply Z.mul_le_mono_nonneg_l; lia.
    - apply Z.mul_lt_mono_pos_r; lia. }
  assert (HuppB : Zpos Mb * 2 ^ (Eb - ez) <= 2 ^ 53 * U)
    by (apply Z.mul_le_mono_nonneg; lia).
  assert (Hd53 : 53 <= d).
  { destruct (Z.lt_ge_cases d 53) as [Hlt | Hge]; [| assumption].
    assert (2 ^ d <= 2 ^ 52) by (apply Z.pow_le_mono_r; lia). lia. }
  assert (HdU : d <= 54 + (Z.max Ea Eb - ez)).
  { destruct (Z.le_gt_cases d (54 + (Z.max Ea Eb - ez))) as [| Hgt];
      [assumption |].
    assert (2 ^ (54 + (Z.max Ea Eb - ez)) <= 2 ^ (d - 1))
      by (apply Z.pow_le_mono_r; unfold ez in *; lia).
    rewrite Z.pow_add_r in H by (unfold ez; lia). fold U in H.
    change (2 ^ 54) with (2 * 2 ^ 53) in H. lia. }
  rewrite fexp_normal by (unfold ez in *; lia).
  assert (Hal : shl_align (a' + b') ez (d + ez - 53) = ((a' + b')%positive, ez)).
  { unfold shl_align. destruct (d + ez - 53 - ez) eqn:Es;
      [reflexivity | reflexivity | lia]. }
  rewrite Hal.
  destruct (binary_round_aux_normal false (Zpos (a' + b')) ez d)
    as (M & E & -> & _).
  - rewrite Pos2Z.inj_add, HA, HB. split; assumption.
  - assumption.
  - unfold ez in *; lia.
  - unfold ez in *; lia.
  - exists M, E. reflexivity.
Qed.

Lemma int_add_mul_defined (a n : Z) (m : positive) (T : Z) :
  2 ^ 52 <= Zpos m < 2 ^ 53 -> 0 <= T <= 64 ->
  0 < a < 2 ^ 31 -> 0 < n < 2 ^ 31 ->
  exists v, int_add_mul a n (S754_finite false m (- T)) = Some v.
Proof.
  intros Hm HT Ha Hn.
  assert (H31 : 2 ^ 31 < 2 ^ 53) by reflexivity.
  destruct (of_int_pos a ltac:(lia)) as (Ma & ja & EA & Hja & _ & HMa).
  destruct (of_int_pos n ltac:(lia)) as (Mn & jn & EN & Hjn & _ & HMn).
  unfold int_add_mul. rewrite EA, EN.
  destruct (mul_normal Mn m (- jn) (- T) HMn Hm ltac:(lia))
    as (M & E & -> & HM & HE).
  destruct (add_normal Ma M (- ja) E HMa HM ltac:(lia) ltac:(lia))
    as (M' & E' & ->).
  cbn [to_int]. eexists. reflexivity.
Qed.

(** *** The literals of [utils.py] *)

Lemma literals_nearest :
  f0_02 = literal 2 100 /\ f0_25 = literal 25 100 /\
  f0_28 = literal 28 100 /\ f0_3 = literal 3 10 /\
  f0_4 = literal 4 10 /\ f0_6 = literal 6 10 /\
  f0_85 = literal 85 100 /\ f0_93 = literal 93 100 /\
  f0_05 = literal 5 100 /\ f0_08 = literal 8 100 /\
  f0_12 = literal 12 100 /\ f0_18 = literal 18 100.
Proof. vm_compute. repeat split. Qed.

Lemma good_0_02 : good_literal 2 100 5764607523034235 58 = true.
Proof. vm_compute. reflexivity. Qed.
Lemma good_0_25 : good_literal 25 100 4503599627370496 54 = true.
Proof. vm_compute. reflexivity. Qed.
Lemma good_0_28 : good_literal 28 100 5044031582654956 54 = true.
Proof. vm_compute. reflexivity. Qed.
Lemma good_0_4 : good_literal 4 10 7205759403792794 54 = true.
Proof. vm_compute. reflexivity. Qed.
Lemma good_0_6 : good_literal 6 10 5404319552844595 53 = true.
Proof. vm_compute. reflexivity. Qed.
Lemma good_0_85 : good_literal 85 100 7656119366529843 53 = true.
Proof. vm_compute. reflexivity. Qed.
Lemma good_0_93 : good_literal 93 100 8376695306909123 53 = true.
Proof. vm_compute. reflexivity. Qed.

End Rounding.

(** ** [utils.py]: what the scaled dimensions are

    The width and the height of an image are below [2^31]: OpenCV keeps the
    rows and the columns of a matrix in a C [int].  On that range
    [int(n * c)] is the integer part of the exact product. *)

Module Scaled.

Import Rounding.

Lemma scale_0_02 (n : Z) :
  Z.abs n < 2 ^ 31 -> int_mul n f0_02 = Some (Z.quot (2 * n) 100).
Proof. exact (int_mul_quot 2 100 _ 58 n good_0_02). Qed.

Lemma scale_0_25 (n : Z) :
  Z.abs n < 2 ^ 31 -> int_mul n f0_25 = Some (Z.quot (25 * n) 100).
Proof. exact (int_mul_quot 25 100 _ 54 n good_0_25). Qed.

Lemma scale_0_28 (n : Z) :
  Z.abs n < 2 ^ 31 -> int_mul n f0_28 = Some (Z.quot (28 * n) 100).
Proof. exact (int_mul_quot 28 100 _ 54 n good_0_28). Qed.

Lemma scale_0_4 (n : Z) :
  Z.abs n < 2 ^ 31 -> int_mul n f0_4 = Some (Z.quot (4 * n) 10).
Proof. exact (int_mul_quot 4 10 _ 54 n good_0_4). Qed.

Lemma scale_0_6 (n : Z) :
  Z.abs n < 2 ^ 31 -> int_mul n f0_6 = Some (Z.quot (6 * n) 10).
Proof. exact (int_mul_quot 6 10 _ 53 n good_0_6). Qed.

Lemma scale_0_85 (n : Z) :
  Z.abs n < 2 ^ 31 -> int_mul n f0_85 = Some (Z.quot (85 * n) 100).
Proof. exact (int_mul_quot 85 100 _ 53 n good_0_85). Qed.

Lemma scale_0_93 (n : Z) :
  Z.abs n < 2 ^ 31 -> int_mul n f0_93 = Some (Z.quot (93 * n) 100).
Proof. exact (int_mul_quot 93 100 _ 53 n good_0_93). Qed.

Lemma quot_nonneg (a n b : Z) :
  0 <= a -> 0 <= n -> 0 < b -> Z.quot (a * n) b = a * n / b.
Proof.
  intros Ha Hn Hb. apply Z.quot_div_nonneg; [| assumption].
  apply Z.mul_nonneg_nonneg; assumption.
Qed.

(** The normaliser on the height of an image, with its scaled heights
    written as quotients. *)
Lemma expand_vertical_range_unfold (x y w h height : Z) :
  Z.abs height < 2 ^ 31 ->
  expand_vertical_range (x, y, w, h) height =
  let y0_start := Z.max 0 (Z.min 50 (Z.quot (2 * height) 100)) in
  let y1_end := Z.min (height - 1) (Z.quot (93 * height) 100) in
  let min_height := Z.quot (85 * height) 100 in
  if y1_end - y0_start <? min_height
  then Some (x, y0_start, w,
             Z.min (height - 1) (y0_start + min_height) - y0_start)
  else Some (x, y0_start, w, y1_end - y0_start).
Proof.
  intros Hh. unfold expand_vertical_range.
  rewrite scale_0_02, scale_0_93, scale_0_85 by assumption. reflexivity.
Qed.

(** On a height of at least one pixel the first estimate already covers
    85% of the page. *)
Lemma coverage (height : Z) :
  1 <= height ->
  85 * height / 100
  <= Z.min (height - 1) (93 * height / 100)
     - Z.max 0 (Z.min 50 (2 * height / 100)).
Proof.
  intros Hh.
  pose proof (Z.div_mod (85 * height) 100 ltac:(lia)).
  pose proof (Z.mod_pos_bound (85 * height) 100 ltac:(lia)).
  pose proof (Z.div_mod (93 * height) 100 ltac:(lia)).
  pose proof (Z.mod_pos_bound (93 * height) 100 ltac:(lia)).
  pose proof (Z.div_mod (2 * height) 100 ltac:(lia)).
  pose proof (Z.mod_pos_bound (2 * height) 100 ltac:(lia)).
  lia.
Qed.

(** The fallback estimate on the width of an image. *)
Lemma get_fallback_coords_value (width height : Z) :
  0 <= width < 2 ^ 31 ->
  get_fallback_coords width height =
  Some {| cx := 28 * width / 100;
          cy := 0;
          cw := Z.max 700 (Z.min 1100 (4 * width / 10));
          ch := height |}.
Proof.
  intros Hw. unfold get_fallback_coords.
  rewrite scale_0_28, scale_0_4 by lia.
  rewrite !quot_nonneg by lia. reflexivity.
Qed.

(** The normalised box on an image at least one pixel high. *)
Lemma expand_vertical_range_value (x y w h height : Z) :
  1 <= height < 2 ^ 31 ->
  expand_vertical_range (x, y, w, h) height =
  Some (x, Z.max 0 (Z.min 50 (2 * height / 100)), w,
        Z.min (height - 1) (93 * height / 100)
        - Z.max 0 (Z.min 50 (2 * height / 100))).
Proof.
  intros Hh. rewrite expand_vertical_range_unfold by lia.
  rewrite !quot_nonneg by lia. cbv zeta.
  replace (_ <? _) with false; [reflexivity |].
  symmetry. apply Z.ltb_ge, coverage. lia.
Qed.

(** The normaliser reads [x], [w] and the height only: whatever it returns
    for one box it returns for every box with the same [x] and [w]. *)
Lemma expand_vertical_range_reads (x y w h height : Z) (b' : box) :
  expand_vertical_range (x, y, w, h) height = Some b' ->
  exists y' h',
    b' = (x, y', w, h') /\
    forall y2 h2, expand_vertical_range (x, y2, w, h2) height = Some b'.
Proof.
  unfold expand_vertical_range.
  destruct (int_mul height f0_02) as [h002 |]; [| discriminate].
  destruct (int_mul height f0_93) as [h093 |]; [| discriminate].
  destruct (int_mul height f0_85) as [min_height |]; [| discriminate].
  destruct (_ <? _); intros Heq; injection Heq as <-;
    eexists; eexists; (split; [reflexivity | intros y2 h2; reflexivity]).
Qed.

(** The normaliser returns on the height of every image. *)
Lemma expand_vertical_range_returns (b : box) (height : Z) :
  Z.abs height < 2 ^ 31 -> exists b', expand_vertical_range b height = Some b'.
Proof.
  intros Hh. destruct b as [[[x y] w] h].
  rewrite expand_vertical_range_unfold by assumption. cbv zeta.
  destruct (_ <? _); eexists; reflexivity.
Qed.

End Scaled.

(** ** The fallback estimator *)

(** C2, as stated: with [round] read as rounding to nearest, the estimator
    would return [x = 281] on a page 1002 pixels wide; the code returns
    [int(280.56) = 280]. *)
Lemma fallback_round_counterexample :
  get_fallback_coords 1002 3000
  = Some {| cx := 280; cy := 0; cw := 700; ch := 3000 |}
  /\ Spec.estimateFallback 1002 3000
     = {| cx := 281; cy := 0; cw := 700; ch := 3000 |}
  /\ get_fallback_coords 1002 3000 <> Some (Spec.estimateFallback 1002 3000).
Proof.
  split; [vm_compute; reflexivity |].
  split; [vm_compute; reflexivity |].
  intros H. vm_compute in H. discriminate H.
Qed.

(** C2, amended: on every image width the estimator succeeds and returns
    [x = floor(0.28 * width)], [y = 0],
    [w = clamp(floor(0.4 * width), 700, 1100)] and [h = height]. *)
Theorem get_fallback_coords_truncates (width height : Z) :
  0 <= width < 2 ^ 31 ->
  get_fallback_coords width height =
  Some {| cx := 28 * width / 100;
          cy := 0;
          cw := Spec.clamp (4 * width / 10) 700 1100;
          ch := height |}.
Proof.
  intros Hw. apply Scaled.get_fallback_coords_value. assumption.
Qed.

Lemma get_fallback_coords_truncates_witness :
  0 <= 1000 < 2 ^ 31 /\
  get_fallback_coords 1000 3000
  = Some {| cx := 280; cy := 0; cw := 700; ch := 3000 |}.
Proof.
  split; [lia |].
  exact (get_fallback_coords_truncates 1000 3000 ltac:(lia)).
Defined.

(** ** The width validator *)

(** C9, as stated: with [round(0.6 * 1601) = 961] a width of 961 would be
    valid on a page 1601 pixels wide; the code compares against
    [int(960.6) = 960] and rejects it. *)
Lemma validate_round_counterexample :
  validate_column_width 961 1601 = Some false
  /\ Spec.isWidthValid 961 1601 = true.
Proof. split; vm_compute; reflexivity. Qed.

(** C9, amended: on every image width the validator answers whether
    [600 <= w <= min(1400, floor(0.6 * imageWidth))]. *)
Theorem validate_column_width_floor (w imageWidth : Z) :
  0 <= imageWidth < 2 ^ 31 ->
  exists valid : bool,
    validate_column_width w imageWidth = Some valid /\
    (valid = true <-> 600 <= w <= Z.min 1400 (6 * imageWidth / 10)).
Proof.
  intros Hw. unfold validate_column_width.
  rewrite Scaled.scale_0_6 by lia.
  rewrite Scaled.quot_nonneg by lia.
  eexists. split; [reflexivity |]. cbn [fst snd VERTICAL_WIDTH_RANGE].
  change (1200 + 200) with 1400. change (Z.max 600 (800 - 200)) with 600.
  rewrite andb_true_iff, Z.leb_le, Z.leb_le. reflexivity.
Qed.

Lemma validate_column_width_floor_witness :
  0 <= 1600 < 2 ^ 31 /\
  exists valid : bool,
    validate_column_width 900 1600 = Some valid /\
    (valid = true <-> 600 <= 900 <= Z.min 1400 (6 * 1600 / 10)).
Proof.
  split; [lia |].
  exact (validate_column_width_floor 900 1600 ltac:(lia)).
Defined.

Example validate_column_width_900_1600 :
  validate_column_width 900 1600 = Some true.
Proof. vm_compute. reflexivity. Qed.

Example validate_column_width_1000_1600 :
  validate_column_width 1000 1600 = Some false.
Proof. vm_compute. reflexivity. Qed.

(** ** The vertical-range normaliser *)

(** C6: on an image at least one pixel high the normalised box starts
    within the top 2% of the page and within 50 pixels, is at least
    [floor(0.85 * imageHeight)] high, and ends at [imageHeight - 1] at the
    latest. *)
Theorem expand_vertical_range_coverage (x y w h height : Z) :
  1 <= height < 2 ^ 31 ->
  exists y' h',
    expand_vertical_range (x, y, w, h) height = Some (x, y', w, h') /\
    0 <= y' /\ 100 * y' <= 2 * height /\ y' <= 50 /\
    85 * height / 100 <= h' /\ y' + h' <= height - 1.
Proof.
  intros Hh. rewrite Scaled.expand_vertical_range_value by assumption.
  eexists. eexists. split; [reflexivity |].
  pose proof (Scaled.coverage height ltac:(lia)) as Hcov.
  pose proof (Z.div_mod (2 * height) 100 ltac:(lia)).
  pose proof (Z.mod_pos_bound (2 * height) 100 ltac:(lia)).
  lia.
Qed.

Lemma expand_vertical_range_coverage_witness :
  1 <= 2000 < 2 ^ 31 /\
  exists y' h',
    expand_vertical_range (100, 500, 900, 800) 2000
    = Some (100, y', 900, h') /\
    0 <= y' /\ 100 * y' <= 2 * 2000 /\ y' <= 50 /\
    85 * 2000 / 100 <= h' /\ y' + h' <= 2000 - 1.
Proof.
  split; [lia |].
  exact (expand_vertical_range_coverage 100 500 900 800 2000 ltac:(lia)).
Defined.

(** C7: whenever the normaliser returns a box, normalising that box again
    on the same image height returns it unchanged; and it does return on
    the height of every image. *)
Theorem expand_vertical_range_idempotent (b : box) (height : Z) :
  (forall b',
      expand_vertical_range b height = Some b' ->
      expand_vertical_range b' height = Some b') /\
  (Z.abs height < 2 ^ 31 ->
   exists b',
     expand_vertical_range b height = Some b' /\
     expand_vertical_range b' height = Some b').
Proof.
  assert (Hfix : forall b',
             expand_vertical_range b height = Some b' ->
             expand_vertical_range b' height = Some b').
  { intros b' Hb. destruct b as [[[x y] w] h].
    destruct (Scaled.expand_vertical_range_reads _ _ _ _ _ _ Hb)
      as (y' & h' & -> & Hany).
    apply Hany. }
  split; [exact Hfix |].
  intros Hh. destruct (Scaled.expand_vertical_range_returns b height Hh)
    as [b' Hb].
  exists b'. split; [exact Hb | apply Hfix, Hb].
Qed.

Lemma expand_vertical_range_idempotent_witness :
  Z.abs 2000 < 2 ^ 31 /\
  expand_vertical_range (100, 500, 900, 800) 2000 = Some (100, 40, 900, 1820) /\
  expand_vertical_range (100, 40, 900, 1820) 2000 = Some (100, 40, 900, 1820).
Proof.
  assert (H : expand_vertical_range (100, 500, 900, 800) 2000
              = Some (100, 40, 900, 1820)) by (vm_compute; reflexivity).
  split; [reflexivity |]. split; [exact H |].
  exact (proj1 (expand_vertical_range_idempotent (100, 500, 900, 800) 2000)
               _ H).
Defined.

(** C8: whenever the normaliser returns a box, the box has the [x] and the
    [w] of the input box; and it does return on the height of every image. *)
Theorem expand_vertical_range_frame (x y w h height : Z) :
  (forall b',
      expand_vertical_range (x, y, w, h) height = Some b' ->
      exists y' h', b' = (x, y', w, h')) /\
  (Z.abs height < 2 ^ 31 ->
   exists y' h',
     expand_vertical_range (x, y, w, h) height = Some (x, y', w, h')).
Proof.
  assert (Hframe : forall b',
             expand_vertical_range (x, y, w, h) height = Some b' ->
             exists y' h', b' = (x, y', w, h')).
  { intros b' Hb.
    destruct (Scaled.expand_vertical_range_reads _ _ _ _ _ _ Hb)
      as (y' & h' & -> & _).
    exists y', h'. reflexivity. }
  split; [exact Hframe |].
  intros Hh.
  destruct (Scaled.expand_vertical_range_returns (x, y, w, h) height Hh)
    as [b' Hb].
  destruct (Hframe b' Hb) as (y' & h' & ->).
  exists y', h'. exact Hb.
Qed.

Lemma expand_vertical_range_frame_witness :
  Z.abs 2000 < 2 ^ 31 /\
  exists y' h',
    expand_vertical_range (100, 500, 900, 800) 2000
    = Some (100, y', 900, h').
Proof.
  split; [reflexivity |].
  exact (proj2 (expand_vertical_range_frame 100 500 900 800 2000) eq_refl).
Defined.

(** C10: on an image at least one pixel high the test that guards the
    re-extension is false, since the first estimate already covers
    [floor(0.85 * imageHeight)]; the normaliser is the function that ignores
    [y] and [h] and returns [(x, y0, w, y1 - y0)]. *)
Theorem expand_vertical_range_simple (b : box) (height : Z) :
  1 <= height < 2 ^ 31 ->
  (exists h002 h093 min_height,
      int_mul height f0_02 = Some h002 /\
      int_mul height f0_93 = Some h093 /\
      int_mul height f0_85 = Some min_height /\
      (Z.min (height - 1) h093 - Z.max 0 (Z.min 50 h002) <? min_height)
      = false) /\
  85 * height / 100
  <= Z.min (height - 1) (93 * height / 100)
     - Z.max 0 (Z.min 50 (2 * height / 100)) /\
  expand_vertical_range b height
  = Some (Spec.normalizeVertical_simple b height).
Proof.
  intros Hh. pose proof (Scaled.coverage height ltac:(lia)) as Hcov.
  split; [| split; [assumption |]].
  - exists (2 * height / 100), (93 * height / 100), (85 * height / 100).
    rewrite Scaled.scale_0_02, Scaled.scale_0_93, Scaled.scale_0_85 by lia.
    rewrite !Scaled.quot_nonneg by lia.
    repeat split. apply Z.ltb_ge. assumption.
  - destruct b as [[[x y] w] h].
    rewrite Scaled.expand_vertical_range_value by assumption.
    reflexivity.
Qed.

Lemma expand_vertical_range_simple_witness :
  1 <= 2000 < 2 ^ 31 /\
  expand_vertical_range (100, 500, 900, 800) 2000
  = Some (100, 40, 900, 1820).
Proof.
  split; [lia |].
  exact (proj2 (proj2 (expand_vertical_range_simple
                         (100, 500, 900, 800) 2000 ltac:(lia)))).
Defined.

(** ** The wide-region splitter *)

(** The splitter returns on every region of an image; whatever the scaled
    estimate [q] is, the split point it leads to is at least [400] and at
    least [x0]. *)
Lemma split_wide_region_defined (x0 x1 width : Z) :
  0 <= x0 < x1 -> x1 <= width -> width < 2 ^ 31 ->
  exists split_x,
    (x0 <= split_x /\ 400 <= split_x) /\
    split_wide_region x0 x1 width =
    Some (if x1 - split_x <? 800
          then (Z.max 400 (Z.max x0 (x1 - 1100)),
                Z.min (x1 - Z.max 400 (Z.max x0 (x1 - 1100))) 1100)
          else (split_x, Z.min (x1 - split_x) 1100)).
Proof.
  intros Hx Hx1 Hw. unfold split_wide_region.
  destruct (Z.ltb_spec x0 100) as [Hnear | Hfar].
  - rewrite Scaled.scale_0_25 by lia.
    exists (Z.max 400 (Z.quot (25 * width) 100)).
    split; [lia |]. cbv zeta.
    destruct (_ <? 800); reflexivity.
  - assert (H52 : 2 ^ 52 <= 5404319552844595 < 2 ^ 53)
      by (split; [discriminate | reflexivity]).
    destruct (Rounding.int_add_mul_defined x0 (x1 - x0)
                5404319552844595 54 H52) as [q Hq]; try lia.
    change (S754_finite false 5404319552844595 (Z.opp 54)) with f0_3 in Hq.
    rewrite Hq. exists (Z.max (x0 + 400) q).
    split; [lia |]. cbv zeta.
    destruct (_ <? 800); reflexivity.
Qed.

(** C3, as stated: a region from 0 to 500 on a page 1000 pixels wide gives a
    column 100 pixels wide. *)
Lemma split_narrow_counterexample :
  0 <= 0 < 500 /\ 500 <= 1000 /\
  split_wide_region 0 500 1000 = Some (400, 100) /\
  ~ (800 <= 100 <= 1100).
Proof.
  split; [lia |]. split; [lia |].
  split; [vm_compute; reflexivity | lia].
Qed.

(** C3, amended: for every region with [0 <= x0 < x1 <= imageWidth] the
    returned width is at most 1100, and it is at least 800 exactly when the
    region ends at 1200 or beyond and is at least 800 wide. *)
Theorem split_wide_region_width (x0 x1 imageWidth : Z) :
  0 <= x0 < x1 -> x1 <= imageWidth -> imageWidth < 2 ^ 31 ->
  exists x w,
    split_wide_region x0 x1 imageWidth = Some (x, w) /\
    w <= 1100 /\
    (800 <= w <-> 1200 <= x1 /\ 800 <= x1 - x0).
Proof.
  intros Hx Hx1 Hw.
  destruct (split_wide_region_defined x0 x1 imageWidth Hx Hx1 Hw)
    as (split_x & [Hs0 Hs400] & ->).
  destruct (Z.ltb_spec (x1 - split_x) 800) as [Hshort | Hlong].
  - eexists. eexists. split; [reflexivity |]. lia.
  - eexists. eexists. split; [reflexivity |]. lia.
Qed.

Lemma split_wide_region_width_witness :
  0 <= 50 < 1400 /\ 1400 <= 1600 /\ 1600 < 2 ^ 31 /\
  exists x w,
    split_wide_region 50 1400 1600 = Some (x, w) /\
    w <= 1100 /\
    (800 <= w <-> 1200 <= 1400 /\ 800 <= 1400 - 50).
Proof.
  split; [lia |]. split; [lia |]. split; [lia |].
  exact (split_wide_region_width 50 1400 1600
           ltac:(lia) ltac:(lia) ltac:(lia)).
Defined.

Example split_wide_region_50_1400_1600 :
  split_wide_region 50 1400 1600 = Some (400, 1000).
Proof. vm_compute. reflexivity. Qed.

(** ** The edge-cut repair *)

Module Repair.

(** Comparing in the other direction gives the opposite answer. *)
Lemma SFcompare_antisym (a b : float) :
  SFcompare b a = option_map CompOpp (SFcompare a b).
Proof.
  destruct a as [sa | sa | | sa ma ea], b as [sb | sb | | sb mb eb];
    cbn [SFcompare option_map]; try reflexivity;
    try (destruct sa; reflexivity); try (destruct sb; reflexivity);
    try (destruct sa, sb; reflexivity).
  destruct sa, sb; cbn [CompOpp]; try reflexivity.
  - rewrite (Z.compare_antisym ea eb).
    destruct (ea ?= eb); cbn [CompOpp]; try reflexivity.
    rewrite CompOpp_involutive.
    rewrite (Pos.compare_cont_antisym mb ma Eq). reflexivity.
  - rewrite (Z.compare_antisym ea eb).
    destruct (ea ?= eb); cbn [CompOpp]; try reflexivity.
    rewrite (Pos.compare_cont_antisym ma mb Eq). reflexivity.
Qed.

(** [a <= b] excludes [a > b]. *)
Lemma le_not_gt (a b : float) : le a b = true -> gt a b = false.
Proof.
  unfold le, gt, SFleb, SFltb. rewrite (SFcompare_antisym a b).
  destruct (SFcompare a b) as [[| |] |]; cbn; congruence.
Qed.

Lemma count_ink_le_size (a : ndarray) : 0 <= count_ink a <= size a.
Proof.
  unfold count_ink, size. split; [lia |].
  apply Nat2Z.inj_le, filter_length_le.
Qed.

(** An empty region has no density above anything. *)
Lemma gt_density_nonempty (a : ndarray) (c : float) :
  gt (density a) c = true -> size a <> 0.
Proof.
  intros Hgt Hsize. pose proof (count_ink_le_size a) as Hc.
  unfold density in Hgt. rewrite Hsize in *.
  replace (count_ink a) with 0 in Hgt by lia.
  destruct c; discriminate Hgt.
Qed.

Lemma expand_width_keeps_x (thresh : ndarray) (x w max_expand : Z) :
  fst (expand_width_if_text_cut thresh x w max_expand) = x.
Proof.
  unfold expand_width_if_text_cut. destruct (shape thresh) as [height width].
  cbv zeta.
  repeat match goal with
         | |- context [if ?c then _ else _] => destruct c
         end; reflexivity.
Qed.

(** The positions of [range(start, stop, 20)] are the [start + 20 * i]
    below [stop]. *)
Lemma py_range_20 (start stop : Z) :
  exists n : nat,
    py_range start stop 20
    = map (fun i => start + 20 * Z.of_nat i) (seq 0 n) /\
    forall i : nat, (i < n)%nat <-> start + 20 * Z.of_nat i < stop.
Proof.
  exists (Z.to_nat ((stop - start + 20 - 1) / 20)).
  split; [reflexivity |]. intros i.
  pose proof (Z.div_mod (stop - start + 20 - 1) 20 ltac:(lia)) as Hdm.
  pose proof (Z.mod_pos_bound (stop - start + 20 - 1) 20 ltac:(lia)) as Hr.
  destruct (Z.le_gt_cases 0 ((stop - start + 20 - 1) / 20)) as [Hq | Hq].
  - lia.
  - assert (Hz : Z.to_nat ((stop - start + 20 - 1) / 20) = 0%nat) by lia.
    rewrite Hz. lia.
Qed.

(** The walk stops at the first strip that does not pass, and [best_end]
    is the right edge of the last strip that passed. *)
Lemma walk_leading (thresh : ndarray) (start : Z) (n s0 : nat) (acc : Z) :
  exists k : nat,
    (k <= n)%nat /\
    (forall i : nat, (i < k)%nat ->
       Spec.strip_passes thresh (start + 20 * Z.of_nat (s0 + i))) /\
    ((k < n)%nat ->
       ~ Spec.strip_passes thresh (start + 20 * Z.of_nat (s0 + k))) /\
    walk thresh (snd (shape thresh))
         (map (fun i => start + 20 * Z.of_nat i) (seq s0 n)) acc
    = match k with
      | O => acc
      | S k' => start + 20 * Z.of_nat (s0 + k') + 40
      end.
Proof.
  revert s0 acc. induction n as [| n IH]; intros s0 acc.
  - exists 0%nat. split; [lia |]. split; [intros i Hi; lia |].
    split; [lia | reflexivity].
  - cbn [seq map walk].
    set (p := start + 20 * Z.of_nat s0).
    destruct (Z.eqb_spec
                (size (columns thresh p (Z.min (p + 40) (snd (shape thresh)))))
                0) as [Hempty | Hfull].
    + exists 0%nat. split; [lia |]. split; [intros i Hi; lia |].
      split; [| reflexivity].
      intros _ [Hsize _]. rewrite Nat.add_0_r in Hsize. fold p in Hsize.
      contradiction.
    + destruct (gt (density (columns thresh p _)) f0_08) eqn:Hgt.
      * destruct (IH (S s0) (p + 40)) as (k & Hk & Hall & Hstop & Hwalk).
        exists (S k). split; [lia |]. split; [| split].
        -- intros i Hi. destruct i as [| i].
           ++ rewrite Nat.add_0_r. fold p. split; assumption.
           ++ replace (s0 + S i)%nat with (S s0 + i)%nat by lia.
              apply Hall. lia.
        -- intros Hlt. replace (s0 + S k)%nat with (S s0 + k)%nat by lia.
           apply Hstop. lia.
        -- rewrite Hwalk. destruct k as [| k].
           ++ rewrite Nat.add_0_r. reflexivity.
           ++ replace (S s0 + k)%nat with (s0 + S k)%nat by lia.
              reflexivity.
      * exists 0%nat. split; [lia |]. split; [intros i Hi; lia |].
        split; [| reflexivity].
        intros _ [_ Hpass]. rewrite Nat.add_0_r in Hpass. fold p in Hpass.
        congruence.
Qed.

End Repair.

(** C5: the repair returns [(x, w)] unchanged when the column is at least
    850 wide, or the density of its rightmost 40 pixels is at most 0.18, or
    the density of the 60 pixels beyond its right edge is at most 0.12,
    whatever the rest of the image holds. *)
Theorem expand_width_gates (thresh : ndarray) (x w max_expand : Z) :
  850 <= w
  \/ le (density (right_edge_region thresh x w)) f0_18 = true
  \/ le (beyond_density thresh x w) f0_12 = true ->
  expand_width_if_text_cut thresh x w max_expand = (x, w).
Proof.
  intros Hgate. unfold expand_width_if_text_cut.
  destruct (shape thresh) as [height width].
  destruct (Z.leb_spec 850 w) as [Hwide | Hnarrow]; [reflexivity |].
  destruct (size (right_edge_region thresh x w) =? 0); [reflexivity |].
  destruct Hgate as [Hw | [Hright | Hbeyond]].
  - lia.
  - rewrite (Repair.le_not_gt _ _ Hright). reflexivity.
  - rewrite (Repair.le_not_gt _ _ Hbeyond).
    destruct (gt _ f0_18); [| reflexivity].
    destruct (_ <? _); reflexivity.
Qed.

Lemma expand_width_gates_witness :
  (850 <= 100
   \/ le (density (right_edge_region Samples.blank_page 10 100)) f0_18 = true
   \/ le (beyond_density Samples.blank_page 10 100) f0_12 = true) /\
  expand_width_if_text_cut Samples.blank_page 10 100 200 = (10, 100).
Proof.
  assert (H : 850 <= 100
              \/ le (density (right_edge_region Samples.blank_page 10 100)) f0_18
                 = true
              \/ le (beyond_density Samples.blank_page 10 100) f0_12 = true).
  { right. left. vm_compute. reflexivity. }
  split; [exact H |].
  exact (expand_width_gates Samples.blank_page 10 100 200 H).
Defined.

(** C4: when the three gates pass, the walk visits the strips at
    [start], [start + 20], ... that begin less than 200 pixels beyond the
    right edge (and inside the image); [k] strips in a row pass, the next
    one does not (or there is none), and [best_end] is the right edge of the
    last strip that passed.  The result is [(x, min(best_end - x, 1100))]
    when [best_end] is at least 40 pixels past [start] and the new width
    exceeds [w + 40], and [(x, w)] otherwise; the returned width is at most
    1100. *)
Theorem expand_width_walk (thresh : ndarray) (x w : Z) :
  w < 850 ->
  gt (density (right_edge_region thresh x w)) f0_18 = true ->
  gt (beyond_density thresh x w) f0_12 = true ->
  exists (k : nat) (best_end : Z),
    (forall i : nat, (i < k)%nat ->
       expand_start thresh x w + 20 * Z.of_nat i
       < Z.min (x + w + 200) (snd (shape thresh)) /\
       Spec.strip_passes thresh (expand_start thresh x w + 20 * Z.of_nat i)) /\
    (expand_start thresh x w + 20 * Z.of_nat k
     < Z.min (x + w + 200) (snd (shape thresh)) ->
     ~ Spec.strip_passes thresh (expand_start thresh x w + 20 * Z.of_nat k)) /\
    best_end = match k with
               | O => expand_start thresh x w
               | S k' => expand_start thresh x w + 20 * Z.of_nat k' + 40
               end /\
    expand_start thresh x w = Z.min (x + w) (snd (shape thresh) - 1) /\
    expand_width_if_text_cut thresh x w max_expand_default =
    (if (expand_start thresh x w + 40 <=? best_end)
        && (w + 40 <? Z.min (best_end - x) 1100)
     then (x, Z.min (best_end - x) 1100)
     else (x, w)) /\
    snd (expand_width_if_text_cut thresh x w max_expand_default) <= 1100.
Proof.
  intros Hnarrow Hright Hbeyond.
  assert (Hes : expand_start thresh x w
                = Z.min (x + w) (snd (shape thresh) - 1)).
  { unfold expand_start. destruct (shape thresh); reflexivity. }
  assert (Hee : expand_end thresh x w
                = Z.min (x + w + 60) (snd (shape thresh))).
  { unfold expand_end. destruct (shape thresh); reflexivity. }
  assert (Hresult :
            expand_width_if_text_cut thresh x w max_expand_default =
            let best_end :=
              walk thresh (snd (shape thresh))
                   (py_range (expand_start thresh x w)
                             (Z.min (x + w + 200) (snd (shape thresh))) 20)
                   (expand_start thresh x w) in
            if expand_start thresh x w + 40 <? best_end then
              if w + 40 <? Z.min (best_end - x) 1100
              then (x, Z.min (best_end - x) 1100) else (x, w)
            else (x, w)).
  { unfold expand_width_if_text_cut, max_expand_default.
    assert (Hlt : (expand_start thresh x w <? expand_end thresh x w) = true)
      by (apply Z.ltb_lt; lia).
    rewrite Hlt, Hright, Hbeyond.
    destruct (shape thresh) as [height width]. cbn [snd].
    replace (850 <=? w) with false by (symmetry; apply Z.leb_gt; lia).
    replace (size (right_edge_region thresh x w) =? 0) with false.
    - reflexivity.
    - symmetry. apply Z.eqb_neq.
      apply (Repair.gt_density_nonempty _ _ Hright). }
  destruct (Repair.py_range_20 (expand_start thresh x w)
              (Z.min (x + w + 200) (snd (shape thresh))))
    as (n & Hrange & Hn).
  destruct (Repair.walk_leading thresh (expand_start thresh x w) n 0
              (expand_start thresh x w))
    as (k & Hk & Hall & Hstop & Hwalk).
  rewrite Hrange, Hwalk in Hresult. cbv zeta in Hresult.
  set (st := expand_start thresh x w) in *.
  set (best_end := match k with
                   | O => st
                   | S k' => st + 20 * Z.of_nat (0 + k') + 40
                   end) in *.
  exists k, best_end.
  assert (Hfinal :
            expand_width_if_text_cut thresh x w max_expand_default =
            (if (st + 40 <=? best_end)
                && (w + 40 <? Z.min (best_end - x) 1100)
             then (x, Z.min (best_end - x) 1100)
             else (x, w))).
  { rewrite Hresult.
    destruct (Z.ltb_spec (st + 40) best_end) as [Hfar | Hnear];
      destruct (Z.leb_spec (st + 40) best_end) as [Hle | Hgt];
      destruct (Z.ltb_spec (w + 40) (Z.min (best_end - x) 1100))
        as [Hgain | Hnogain];
      cbn [andb]; try reflexivity; lia. }
  split; [| split; [| split; [| split; [| split]]]].
  - intros i Hi. split.
    + apply Hn. lia.
    + apply (Hall i Hi).
  - intros Hin. apply Hn in Hin. apply (Hstop Hin).
  - unfold best_end. destruct k; reflexivity.
  - assumption.
  - assumption.
  - rewrite Hfinal. destruct (_ && _); cbn [snd]; lia.
Qed.

Lemma expand_width_walk_witness :
  100 < 850 /\
  gt (density (right_edge_region Samples.cut_page 10 100)) f0_18 = true /\
  gt (beyond_density Samples.cut_page 10 100) f0_12 = true /\
  expand_width_if_text_cut Samples.cut_page 10 100 max_expand_default
  = (10, 180) /\
  snd (expand_width_if_text_cut Samples.cut_page 10 100 max_expand_default)
  <= 1100.
Proof.
  assert (H1 : 100 < 850) by lia.
  assert (H2 : gt (density (right_edge_region Samples.cut_page 10 100)) f0_18
               = true) by (vm_compute; reflexivity).
  assert (H3 : gt (beyond_density Samples.cut_page 10 100) f0_12 = true)
    by (vm_compute; reflexivity).
  split; [exact H1 |]. split; [exact H2 |]. split; [exact H3 |].
  destruct (expand_width_walk Samples.cut_page 10 100 H1 H2 H3)
    as (k & best_end & _ & _ & _ & _ & _ & Hmax).
  split; [vm_compute; reflexivity | exact Hmax].
Defined.

(** The walk on the sample page: three strips pass, the fourth is blank. *)
Example expand_width_cut_page :
  expand_width_if_text_cut Samples.cut_page 10 100 max_expand_default
  = (10, 180).
Proof. vm_compute. reflexivity. Qed.

(** On a page that is all ink the repaired box ends 20 pixels beyond the
    image: the last strip is clipped to the image, [best_end] is not. *)
Example expand_width_inked_page :
  shape Samples.inked_page = (2, 1000) /\
  expand_width_if_text_cut Samples.inked_page 200 700 max_expand_default
  = (200, 820).
Proof. split; vm_compute; reflexivity. Qed.

(** ** The box invariant along the refinement steps *)

(** C1, as stated: on a page 900 pixels wide the fallback box ends at
    [252 + 700 = 952], beyond the page. *)
Lemma fallback_outside_counterexample :
  1 <= 900 /\ 1 <= 3000 /\
  get_fallback_coords 900 3000
  = Some {| cx := 252; cy := 0; cw := 700; ch := 3000 |} /\
  ~ Spec.in_image 900 3000 (252, 0, 700, 3000).
Proof.
  split; [lia |]. split; [lia |].
  split; [vm_compute; reflexivity |].
  unfold Spec.in_image. lia.
Qed.

(** C1, amended.  Fallback: [0 <= x], [y = 0] and [y + h = imageHeight],
    and [x + w <= imageWidth] exactly on pages at least 971 pixels wide.
    Normalize: [0 <= y] and [y + h <= imageHeight - 1], with [x] and [w]
    kept, so a box inside the page stays inside.  Split: [0 <= x] and
    [x + w <= imageWidth].  Repair: [x] is kept. *)
Theorem refinement_steps_bounds
        (imageWidth imageHeight x y w h x0 x1 max_expand : Z)
        (thresh : ndarray) :
  1 <= imageWidth < 2 ^ 31 -> 1 <= imageHeight < 2 ^ 31 ->
  0 <= x0 < x1 -> x1 <= imageWidth ->
  (exists c,
      get_fallback_coords imageWidth imageHeight = Some c /\
      0 <= cx c /\ cy c = 0 /\ cy c + ch c = imageHeight /\
      (cx c + cw c <= imageWidth <-> 971 <= imageWidth)) /\
  (exists y' h',
      expand_vertical_range (x, y, w, h) imageHeight = Some (x, y', w, h') /\
      0 <= y' /\ y' + h' <= imageHeight - 1 /\
      (0 <= x -> x + w <= imageWidth ->
       Spec.in_image imageWidth imageHeight (x, y', w, h'))) /\
  (exists sx sw,
      split_wide_region x0 x1 imageWidth = Some (sx, sw) /\
      0 <= sx /\ sx + sw <= imageWidth) /\
  fst (expand_width_if_text_cut thresh x w max_expand) = x.
Proof.
  intros HW HH Hx Hx1. split; [| split; [| split]].
  - rewrite Scaled.get_fallback_coords_value by lia.
    eexists. split; [reflexivity |]. cbn [cx cy cw ch].
    pose proof (Z.div_mod (28 * imageWidth) 100 ltac:(lia)).
    pose proof (Z.mod_pos_bound (28 * imageWidth) 100 ltac:(lia)).
    pose proof (Z.div_mod (4 * imageWidth) 10 ltac:(lia)).
    pose proof (Z.mod_pos_bound (4 * imageWidth) 10 ltac:(lia)).
    lia.
  - rewrite Scaled.expand_vertical_range_value by assumption.
    eexists. eexists. split; [reflexivity |].
    pose proof (Scaled.coverage imageHeight ltac:(lia)) as Hcov.
    pose proof (Z.div_pos (85 * imageHeight) 100 ltac:(lia) ltac:(lia)).
    unfold Spec.in_image. lia.
  - destruct (split_wide_region_defined x0 x1 imageWidth Hx Hx1 ltac:(lia))
      as (split_x & [Hs0 Hs400] & ->).
    destruct (Z.ltb_spec (x1 - split_x) 800) as [Hshort | Hlong];
      eexists; eexists; (split; [reflexivity | lia]).
  - apply Repair.expand_width_keeps_x.
Qed.

Lemma refinement_steps_bounds_witness :
  1 <= 1600 < 2 ^ 31 /\ 1 <= 3000 < 2 ^ 31 /\ 0 <= 50 < 1400 /\
  1400 <= 1600 /\
  (exists c,
      get_fallback_coords 1600 3000 = Some c /\
      0 <= cx c /\ cy c = 0 /\ cy c + ch c = 3000 /\
      (cx c + cw c <= 1600 <-> 971 <= 1600)) /\
  (exists y' h',
      expand_vertical_range (448, 0, 700, 3000) 3000
      = Some (448, y', 700, h') /\
      0 <= y' /\ y' + h' <= 3000 - 1 /\
      (0 <= 448 -> 448 + 700 <= 1600 ->
       Spec.in_image 1600 3000 (448, y', 700, h'))) /\
  (exists sx sw,
      split_wide_region 50 1400 1600 = Some (sx, sw) /\
      0 <= sx /\ sx + sw <= 1600) /\
  fst (expand_width_if_text_cut Samples.cut_page 448 700 200) = 448.
Proof.
  split; [lia |]. split; [lia |]. split; [lia |]. split; [lia |].
  exact (refinement_steps_bounds 1600 3000 448 0 700 3000 50 1400 200
           Samples.cut_page ltac:(lia) ltac:(lia) ltac:(lia) ltac:(lia)).
Defined.

(** ** Further properties of [utils.py] *)

Module UtilsMore.

Import Rounding.

Lemma good_0_05 : good_literal 5 100 7205759403792794 57 = true.
Proof. vm_compute. reflexivity. Qed.

Lemma scale_0_05 (n : Z) :
  Z.abs n < 2 ^ 31 -> int_mul n f0_05 = Some (Z.quot (5 * n) 100).
Proof. exact (int_mul_quot 5 100 _ 57 n good_0_05). Qed.

Lemma reject_first_column_value (x width : Z) :
  0 <= width < 2 ^ 31 ->
  reject_first_column x width = Some (x <? Z.max 50 (5 * width / 100)).
Proof.
  intros Hw. unfold reject_first_column.
  rewrite scale_0_05 by lia. rewrite Scaled.quot_nonneg by lia.
  reflexivity.
Qed.

Lemma validate_column_width_value (w width : Z) :
  0 <= width < 2 ^ 31 ->
  validate_column_width w width
  = Some ((600 <=? w) && (w <=? Z.min 1400 (6 * width / 10))).
Proof.
  intros Hw. unfold validate_column_width.
  rewrite Scaled.scale_0_6 by lia. rewrite Scaled.quot_nonneg by lia.
  reflexivity.
Qed.

End UtilsMore.

(** X1: on every image width a column is rejected as the first column
    exactly when it starts left of pixel 50 or within the first twentieth of
    the page, [20 * (x + 1) <= width]. *)
Theorem reject_first_column_threshold (x width : Z) :
  0 <= width < 2 ^ 31 ->
  exists rejected : bool,
    reject_first_column x width = Some rejected /\
    (rejected = true <-> x < 50 \/ 20 * (x + 1) <= width).
Proof.
  intros Hw. rewrite UtilsMore.reject_first_column_value by assumption.
  eexists. split; [reflexivity |]. rewrite Z.ltb_lt.
  pose proof (Z.div_mod (5 * width) 100 ltac:(lia)).
  pose proof (Z.mod_pos_bound (5 * width) 100 ltac:(lia)).
  lia.
Qed.

Lemma reject_first_column_threshold_witness :
  0 <= 1600 < 2 ^ 31 /\
  exists rejected : bool,
    reject_first_column 70 1600 = Some rejected /\
    (rejected = true <-> 70 < 50 \/ 20 * (70 + 1) <= 1600).
Proof.
  split; [lia |].
  exact (reject_first_column_threshold 70 1600 ltac:(lia)).
Defined.

(** X2: the width of the fallback box passes [validate_column_width] on the
    same page exactly when the page is at least 1167 pixels wide. *)
Theorem fallback_width_valid (width height : Z) :
  0 <= width < 2 ^ 31 ->
  exists c valid,
    get_fallback_coords width height = Some c /\
    validate_column_width (cw c) width = Some valid /\
    (valid = true <-> 1167 <= width).
Proof.
  intros Hw. rewrite Scaled.get_fallback_coords_value by assumption.
  eexists. eexists. split; [reflexivity |]. cbn [cw].
  rewrite UtilsMore.validate_column_width_value by assumption.
  split; [reflexivity |].
  rewrite andb_true_iff, !Z.leb_le.
  pose proof (Z.div_mod (4 * width) 10 ltac:(lia)).
  pose proof (Z.mod_pos_bound (4 * width) 10 ltac:(lia)).
  pose proof (Z.div_mod (6 * width) 10 ltac:(lia)).
  pose proof (Z.mod_pos_bound (6 * width) 10 ltac:(lia)).
  lia.
Qed.

Lemma fallback_width_valid_witness :
  0 <= 1000 < 2 ^ 31 /\
  exists c valid,
    get_fallback_coords 1000 3000 = Some c /\
    validate_column_width (cw c) 1000 = Some valid /\
    (valid = true <-> 1167 <= 1000).
Proof.
  split; [lia |].
  exact (fallback_width_valid 1000 3000 ltac:(lia)).
Defined.

(** X3: the left edge of the fallback box is rejected by
    [reject_first_column] on the same page exactly when the page is less
    than 179 pixels wide. *)
Theorem fallback_not_first_column (width height : Z) :
  0 <= width < 2 ^ 31 ->
  exists c rejected,
    get_fallback_coords width height = Some c /\
    reject_first_column (cx c) width = Some rejected /\
    (rejected = true <-> width < 179).
Proof.
  intros Hw. rewrite Scaled.get_fallback_coords_value by assumption.
  eexists. eexists. split; [reflexivity |]. cbn [cx].
  rewrite UtilsMore.reject_first_column_value by assumption.
  split; [reflexivity |]. rewrite Z.ltb_lt.
  pose proof (Z.div_mod (28 * width) 100 ltac:(lia)).
  pose proof (Z.mod_pos_bound (28 * width) 100 ltac:(lia)).
  pose proof (Z.div_mod (5 * width) 100 ltac:(lia)).
  pose proof (Z.mod_pos_bound (5 * width) 100 ltac:(lia)).
  lia.
Qed.

Lemma fallback_not_first_column_witness :
  0 <= 1600 < 2 ^ 31 /\
  exists c rejected,
    get_fallback_coords 1600 3000 = Some c /\
    reject_first_column (cx c) 1600 = Some rejected /\
    (rejected = true <-> 1600 < 179).
Proof.
  split; [lia |].
  exact (fallback_not_first_column 1600 3000 ltac:(lia)).
Defined.

(** X4: on a height that is zero or negative the re-extension branch of the
    normaliser runs, and the box it returns starts at [y = 0] with the
    negative height [height - 1]. *)
Theorem expand_vertical_range_nonpositive (x y w h height : Z) :
  - 2 ^ 31 < height <= 0 ->
  (exists h002 h093 min_height,
      int_mul height f0_02 = Some h002 /\
      int_mul height f0_93 = Some h093 /\
      int_mul height f0_85 = Some min_height /\
      (Z.min (height - 1) h093 - Z.max 0 (Z.min 50 h002) <? min_height)
      = true) /\
  expand_vertical_range (x, y, w, h) height = Some (x, 0, w, height - 1).
Proof.
  intros Hh.
  assert (Hq : forall a, 0 < a <= 100 ->
                 height <= Z.quot (a * height) 100 <= 0).
  { intros a Ha.
    replace (a * height) with (- (a * - height)) by ring.
    rewrite Z.quot_opp_l by lia.
    rewrite Z.quot_div_nonneg by lia.
    pose proof (Z.div_mod (a * - height) 100 ltac:(lia)).
    pose proof (Z.mod_pos_bound (a * - height) 100 ltac:(lia)).
    assert (0 <= a * - height / 100) by (apply Z.div_pos; lia).
    nia. }
  pose proof (Hq 2 ltac:(lia)) as H2.
  pose proof (Hq 93 ltac:(lia)) as H93.
  pose proof (Hq 85 ltac:(lia)) as H85.
  split.
  - exists (Z.quot (2 * height) 100), (Z.quot (93 * height) 100),
      (Z.quot (85 * height) 100).
    rewrite Scaled.scale_0_02, Scaled.scale_0_93, Scaled.scale_0_85 by lia.
    repeat split. apply Z.ltb_lt. lia.
  - rewrite Scaled.expand_vertical_range_unfold by lia. cbv zeta.
    destruct (Z.ltb_spec
                (Z.min (height - 1) (Z.quot (93 * height) 100)
                 - Z.max 0 (Z.min 50 (Z.quot (2 * height) 100)))
                (Z.quot (85 * height) 100)) as [Hlt | Hge].
    + replace (Z.max 0 (Z.min 50 (Z.quot (2 * height) 100))) with 0 by lia.
      replace (Z.min (height - 1) (0 + Z.quot (85 * height) 100) - 0)
        with (height - 1) by lia.
      reflexivity.
    + lia.
Qed.

Lemma expand_vertical_range_nonpositive_witness :
  - 2 ^ 31 < 0 <= 0 /\
  expand_vertical_range (100, 500, 900, 800) 0 = Some (100, 0, 900, 0 - 1).
Proof.
  split; [lia |].
  exact (proj2 (expand_vertical_range_nonpositive 100 500 900 800 0
                  ltac:(lia))).
Defined.

(** ** Further properties of [validation.py] *)

Module RepairMore.

Lemma expand_start_value (thresh : ndarray) (x w : Z) :
  expand_start thresh x w = Z.min (x + w) (snd (shape thresh) - 1).
Proof. unfold expand_start. destruct (shape thresh); reflexivity. Qed.

Lemma expand_end_value (thresh : ndarray) (x w : Z) :
  expand_end thresh x w = Z.min (x + w + 60) (snd (shape thresh)).
Proof. unfold expand_end. destruct (shape thresh); reflexivity. Qed.

(** The repair as one test of the gates followed by the walk. *)
Lemma expand_width_unfold (thresh : ndarray) (x w max_expand : Z) :
  expand_width_if_text_cut thresh x w max_expand =
  if Further.gates_pass thresh x w then
    let best_end :=
      walk thresh (snd (shape thresh))
           (py_range (expand_start thresh x w)
                     (Z.min (x + w + max_expand) (snd (shape thresh))) 20)
           (expand_start thresh x w) in
    if expand_start thresh x w + 40 <? best_end then
      if w + 40 <? Z.min (best_end - x) 1100
      then (x, Z.min (best_end - x) 1100) else (x, w)
    else (x, w)
  else (x, w).
Proof.
  unfold expand_width_if_text_cut, Further.gates_pass.
  assert (Hlt : (expand_start thresh x w <? expand_end thresh x w) = true).
  { apply Z.ltb_lt. rewrite expand_start_value, expand_end_value. lia. }
  rewrite Hlt. destruct (shape thresh) as [height width]. cbn [snd].
  destruct (Z.leb_spec 850 w) as [Hwide | Hnarrow].
  - replace (w <? 850) with false by (symmetry; apply Z.ltb_ge; lia).
    reflexivity.
  - replace (w <? 850) with true by (symmetry; apply Z.ltb_lt; lia).
    cbn [andb].
    destruct (size (right_edge_region thresh x w) =? 0); cbn [negb andb];
      [reflexivity |].
    destruct (gt (density (right_edge_region thresh x w)) f0_18);
      cbn [andb]; [| reflexivity].
    destruct (gt (beyond_density thresh x w) f0_12); reflexivity.
Qed.

(** Where the walk can end: at the value it started with, or 40 pixels past
    a position of the range, after at least as many strips passed as lie
    before that position. *)
Lemma walk_range (thresh : ndarray) (start stop : Z) :
  exists k : nat,
    (forall i : nat, (i < k)%nat ->
       start + 20 * Z.of_nat i < stop /\
       Spec.strip_passes thresh (start + 20 * Z.of_nat i)) /\
    walk thresh (snd (shape thresh)) (py_range start stop 20) start
    = match k with
      | O => start
      | S k' => start + 20 * Z.of_nat k' + 40
      end.
Proof.
  destruct (Repair.py_range_20 start stop) as (n & -> & Hn).
  destruct (Repair.walk_leading thresh start n 0 start)
    as (k & Hk & Hall & _ & Hwalk).
  exists k. split.
  - intros i Hi. split; [apply Hn; lia | apply (Hall i Hi)].
  - rewrite Hwalk. destruct k; reflexivity.
Qed.

Lemma slice_beyond {A : Type} (l : list A) (lo hi : Z) :
  Z.of_nat (length l) <= lo -> slice l lo hi = [].
Proof.
  intros Hlo. unfold slice, slice_bound.
  replace (lo <? 0) with false by (symmetry; apply Z.ltb_ge; lia).
  replace (Z.min lo (Z.of_nat (length l))) with (Z.of_nat (length l)) by lia.
  rewrite Nat2Z.id, skipn_all. apply firstn_nil.
Qed.

Lemma columns_beyond (a : ndarray) (lo hi : Z) :
  Further.rectangular a -> snd (shape a) <= lo -> size (columns a lo hi) = 0.
Proof.
  intros Hrect Hlo. unfold size, columns. cbn [shape snd] in Hlo.
  replace (concat (map (fun row => slice row lo hi) a)) with (@nil Z);
    [reflexivity |].
  symmetry. unfold Further.rectangular in Hrect.
  set (n := length (hd [] a)) in *. clearbody n.
  induction a as [| row rows IH]; [reflexivity |].
  cbn [map concat]. inversion Hrect as [| ? ? Hrow Hrows]; subst.
  rewrite slice_beyond by lia. cbn [app]. apply IH. assumption.
Qed.

End RepairMore.

(** X5: the repair never moves the left edge and never narrows the column.
    When it widens, the column was narrower than 850, the new width exceeds
    [w + 40], is at most 1100 and at most [w + max_expand + 39], and the new
    right edge is at most 39 pixels beyond the image. *)
Theorem expand_width_bounds (thresh : ndarray) (x w max_expand : Z) :
  exists w',
    expand_width_if_text_cut thresh x w max_expand = (x, w') /\
    (w' = w \/
     (w < 850 /\ w + 40 < w' /\ w' <= 1100 /\
      w' <= w + max_expand + 39 /\
      x + w' <= snd (shape thresh) + 39)).
Proof.
  rewrite RepairMore.expand_width_unfold.
  destruct (Further.gates_pass thresh x w) eqn:Hgates;
    [| exists w; split; [reflexivity | left; reflexivity]].
  unfold Further.gates_pass in Hgates.
  repeat (apply andb_prop in Hgates; destruct Hgates as [Hgates ?]).
  apply Z.ltb_lt in Hgates.
  destruct (RepairMore.walk_range thresh (expand_start thresh x w)
              (Z.min (x + w + max_expand) (snd (shape thresh))))
    as (k & Hall & ->).
  pose proof (RepairMore.expand_start_value thresh x w) as Hes.
  cbv zeta.
  destruct (Z.ltb_spec (expand_start thresh x w + 40)
              match k with
              | O => expand_start thresh x w
              | S k' => expand_start thresh x w + 20 * Z.of_nat k' + 40
              end) as [Hfar | Hnear];
    [| exists w; split; [reflexivity | left; reflexivity]].
  destruct k as [| k']; [lia |].
  destruct (Hall k' ltac:(lia)) as [Hpos _].
  destruct (Z.ltb_spec (w + 40)
              (Z.min (expand_start thresh x w + 20 * Z.of_nat k' + 40 - x)
                     1100)) as [Hgain | Hnogain];
    [| exists w; split; [reflexivity | left; reflexivity]].
  eexists. split; [reflexivity |]. right. lia.
Qed.



(** X7: a box that starts at or beyond the right edge of the image is
    returned unchanged; so is every box on an image without columns. *)
Theorem expand_width_outside_image (thresh : ndarray) (x w max_expand : Z) :
  Further.rectangular thresh ->
  snd (shape thresh) <= x ->
  expand_width_if_text_cut thresh x w max_expand = (x, w).
Proof.
  intros Hrect Hx. rewrite RepairMore.expand_width_unfold.
  unfold Further.gates_pass.
  assert (Hsize : size (right_edge_region thresh x w) = 0).
  { unfold right_edge_region.
    destruct (shape thresh) as [height width] eqn:Hshape.
    apply RepairMore.columns_beyond; [assumption |].
    rewrite Hshape. cbn [snd] in *. lia. }
  rewrite Hsize. cbn [Z.eqb negb]. rewrite andb_false_r. reflexivity.
Qed.

Lemma expand_width_outside_image_witness :
  Further.rectangular Samples.inked_page /\
  snd (shape Samples.inked_page) <= 1000 /\
  expand_width_if_text_cut Samples.inked_page 1000 700 200 = (1000, 700).
Proof.
  assert (Hrect : Further.rectangular Samples.inked_page)
    by (repeat constructor).
  assert (Hx : snd (shape Samples.inked_page) <= 1000)
    by (vm_compute; discriminate).
  split; [exact Hrect |]. split; [exact Hx |].
  exact (expand_width_outside_image Samples.inked_page 1000 700 200 Hrect Hx).
Defined.

(** ** Binary64 sums: [int(a + n * c)] *)

Module RoundingSum.

Import Rounding.






End RoundingSum.



(** X9: the column the splitter returns starts at pixel 400 or further
    right and not left of [x0]; on a page less than 8020 pixels wide
    [reject_first_column] therefore never rejects it. *)
Theorem split_not_first_column (x0 x1 width : Z) :
  0 <= x0 < x1 -> x1 <= width -> width < 8020 ->
  exists sx sw,
    split_wide_region x0 x1 width = Some (sx, sw) /\
    400 <= sx /\ x0 <= sx /\
    reject_first_column sx width = Some false.
Proof.
  intros Hx Hx1 Hw.
  assert (Hw31 : width < 2 ^ 31).
  { apply Z.lt_trans with 8020; [assumption | reflexivity]. }
  destruct (split_wide_region_defined x0 x1 width Hx Hx1 Hw31)
    as (split_x & [Hs0 Hs400] & ->).
  assert (Hrej : forall sx, 400 <= sx ->
                   reject_first_column sx width = Some false).
  { intros sx Hsx.
    rewrite UtilsMore.reject_first_column_value by lia. f_equal.
    apply Z.ltb_ge.
    pose proof (Z.div_mod (5 * width) 100 ltac:(lia)).
    pose proof (Z.mod_pos_bound (5 * width) 100 ltac:(lia)).
    lia. }
  destruct (Z.ltb_spec (x1 - split_x) 800) as [Hshort | Hlong];
    eexists; eexists; (split; [reflexivity |]);
    (split; [lia |]); (split; [lia |]); apply Hrej; lia.
Qed.

Lemma split_not_first_column_witness :
  0 <= 50 < 1400 /\ 1400 <= 1600 /\ 1600 < 8020 /\
  exists sx sw,
    split_wide_region 50 1400 1600 = Some (sx, sw) /\
    400 <= sx /\ 50 <= sx /\
    reject_first_column sx 1600 = Some false.
Proof.
  split; [lia |]. split; [lia |]. split; [lia |].
  exact (split_not_first_column 50 1400 1600
           ltac:(lia) ltac:(lia) ltac:(lia)).
Defined.

(** ** [tanaj/converter.py]: the value of a numeral *)

Module ConverterFacts.

Import Converter.

Lemma append_assoc (s1 s2 s3 : string) :
  ((s1 ++ s2) ++ s3)%string = (s1 ++ (s2 ++ s3))%string.
Proof.
  induction s1 as [| c s1 IH]; [reflexivity |].
  cbn [append]. rewrite IH. reflexivity.
Qed.

Lemma append_empty_r (s : string) : (s ++ "")%string = s.
Proof.
  induction s as [| c s IH]; [reflexivity |].
  cbn [append]. rewrite IH. reflexivity.
Qed.

(** The value of a numeral splits where a letter ends. *)
Lemma numeral_value_app (n : nat) (s1 s2 : string) :
  String.length s1 = (2 * n)%nat ->
  numeral_value (s1 ++ s2) = numeral_value s1 + numeral_value s2.
Proof.
  revert s1. induction n as [| n IH]; intros s1 Hlen.
  - destruct s1; [reflexivity | discriminate Hlen].
  - destruct s1 as [| b1 [| b2 rest]]; cbn [String.length] in Hlen;
      try lia.
    cbn [append]. cbn [numeral_value]. rewrite IH; lia.
Qed.

Lemma below_100_checked :
  forallb below_100_ok (map Z.of_nat (seq 0 100)) = true.
Proof. vm_compute. reflexivity. Qed.

Lemma tens_and_units_value (r : Z) :
  0 <= r < 100 ->
  numeral_value (tens_and_units "" r) = r /\
  exists n, String.length (tens_and_units "" r) = (2 * n)%nat.
Proof.
  intros Hr. pose proof below_100_checked as Hall.
  rewrite forallb_forall in Hall.
  specialize (Hall r).
  assert (Hin : In r (map Z.of_nat (seq 0 100))).
  { replace r with (Z.of_nat (Z.to_nat r)) by lia.
    apply in_map, in_seq. lia. }
  apply Hall in Hin. unfold below_100_ok in Hin.
  apply andb_prop in Hin. destruct Hin as [Hval Heven].
  split; [apply Z.eqb_eq; assumption |].
  apply Nat.even_spec in Heven. destruct Heven as [n Hn].
  exists n. assumption.
Qed.

Lemma tens_and_units_app (result : string) (num : Z) :
  tens_and_units result num = (result ++ tens_and_units "" num)%string.
Proof.
  unfold tens_and_units.
  destruct (20 <=? num).
  - destruct (0 <? num mod 10); cbn [append];
      [apply append_assoc | reflexivity].
  - destruct (10 <=? num).
    + cbn [Z.ltb Z.compare].
      destruct (num =? 15); [reflexivity |].
      destruct (num =? 16); reflexivity.
    + destruct (0 <? num); cbn [append];
        [reflexivity | symmetry; apply append_empty_r].
Qed.

Section Value.

Variable table : Z -> option string.
Hypothesis table_values :
  forall k numeral, table k = Some numeral -> numeral_value numeral = k.

Lemma numeral_fuel_value (fuel : nat) (num : Z) :
  0 < num -> (Z.to_nat (num / 400) < fuel)%nat ->
  exists numeral,
    number_to_hebrew_numeral_fuel table fuel num = Some numeral /\
    numeral_value numeral = num.
Proof.
  revert num. induction fuel as [| fuel IH]; intros num Hnum Hfuel; [lia |].
  cbn [number_to_hebrew_numeral_fuel].
  replace (num <=? 0) with false by (symmetry; apply Z.leb_gt; lia).
  destruct (table num) as [numeral |] eqn:Htable.
  { exists numeral. split; [reflexivity | apply table_values, Htable]. }
  cbn [append].
  pose proof (Z.div_mod num 100 ltac:(lia)) as Hdm.
  pose proof (Z.mod_pos_bound num 100 ltac:(lia)) as Hr.
  destruct (tens_and_units_value (num mod 100) Hr) as [Hval [n Hlen]].
  destruct (Z.leb_spec 100 num) as [Hbig | Hsmall].
  - destruct (Z.leb_spec (num / 100) 4) as [Hfew | Hmany].
    + eexists. split; [reflexivity |].
      rewrite tens_and_units_app.
      assert (Hd : num / 100 = 1 \/ num / 100 = 2 \/ num / 100 = 3
                   \/ num / 100 = 4) by lia.
      destruct Hd as [Hd | [Hd | [Hd | Hd]]]; rewrite Hd in *;
        [change (item hundreds 1) with "ק"%string
        | change (item hundreds 2) with "ר"%string
        | change (item hundreds 3) with "ש"%string
        | change (item hundreds 4) with "ת"%string];
        cbn [append numeral_value]; rewrite Hval;
        match goal with
        | |- letter_value ?l + _ = _ =>
            let v := eval vm_compute in (letter_value l) in
            change (letter_value l) with v
        end; lia.
    + replace (0 <? num - 400) with true by (symmetry; apply Z.ltb_lt; lia).
      assert (Hdiv : (num - 400) / 400 = num / 400 - 1).
      { replace (num - 400) with (num + (-1) * 400) by ring.
        rewrite Z.div_add by lia. lia. }
      assert (H400 : 1 <= num / 400).
      { apply Z.div_le_lower_bound; lia. }
      destruct (IH (num - 400)) as (rest & -> & Hrest); [lia | lia |].
      eexists. split; [reflexivity |].
      cbn [append numeral_value]. rewrite Hrest.
      change (letter_value "ת") with 400. lia.
  - eexists. split; [reflexivity |].
    replace (num mod 100) with num in Hval; [assumption |].
    symmetry. apply Z.mod_small. lia.
Qed.

End Value.

End ConverterFacts.

(** X10: for a table whose entries have the value of their key, and every
    [num] from 1 to 100000 (at most 250 nested calls), the numeral that
    [number_to_hebrew_numeral] returns has letters that add up to [num]. *)
Theorem number_to_hebrew_numeral_value
        (HEBREW_NUMERALS : Z -> option string) (num : Z) :
  (forall k numeral,
      HEBREW_NUMERALS k = Some numeral ->
      Converter.numeral_value numeral = k) ->
  0 < num <= 100000 ->
  exists numeral,
    Converter.number_to_hebrew_numeral HEBREW_NUMERALS num = Some numeral /\
    Converter.numeral_value numeral = num.
Proof.
  intros Htable Hnum. unfold Converter.number_to_hebrew_numeral.
  apply ConverterFacts.numeral_fuel_value; [assumption | lia | lia].
Qed.

Lemma number_to_hebrew_numeral_value_witness :
  (forall k numeral,
      Converter.sample_numerals k = Some numeral ->
      Converter.numeral_value numeral = k) /\
  0 < 176 <= 100000 /\
  exists numeral,
    Converter.number_to_hebrew_numeral Converter.sample_numerals 176
    = Some numeral /\
    Converter.numeral_value numeral = 176.
Proof.
  assert (Htable : forall k numeral,
             Converter.sample_numerals k = Some numeral ->
             Converter.numeral_value numeral = k).
  { intros k numeral. unfold Converter.sample_numerals.
    destruct (Z.eqb_spec k 1) as [-> | _].
    - intros H. injection H as <-. reflexivity.
    - destruct (Z.eqb_spec k 15) as [-> | _]; [| discriminate].
      intros H. injection H as <-. reflexivity. }
  split; [exact Htable |]. split; [lia |].
  exact (number_to_hebrew_numeral_value Converter.sample_numerals 176
           Htable ltac:(lia)).
Defined.

(** ** [get_hutter_pdfs.py]: validated names and the files they select *)

Module DownloaderFacts.

Import Downloader.

Lemma keys_checked : forallb key_ok (keys BOOK_NAMES) = true.
Proof. vm_compute. reflexivity. Qed.

Lemma dict_mem_key_ok (k : string) :
  dict_mem BOOK_NAMES k = true -> key_ok k = true.
Proof.
  intros Hmem. unfold dict_mem in Hmem.
  apply existsb_exists in Hmem. destruct Hmem as ([k' v] & Hin & Heq).
  cbn [fst] in Heq. apply String.eqb_eq in Heq. subst k'.
  pose proof keys_checked as Hall. rewrite forallb_forall in Hall.
  apply Hall. unfold keys. apply (in_map fst) in Hin. exact Hin.
Qed.

Section Loop.

Variable lower : string -> string.

(** The loop of [validate_books] in closed form. *)
Lemma validate_loop_outcome (book_names invalid_books valid_books : list string) :
  validate_loop lower book_names invalid_books valid_books =
  if existsb (fun book => String.eqb (lower book) "all") book_names
  then Return (keys BOOK_NAMES)
  else
    match invalid_books
          ++ filter (fun book => negb (dict_mem BOOK_NAMES (lower book)))
                    book_names with
    | [] =>
        Return (valid_books
                ++ map lower
                     (filter (fun book => dict_mem BOOK_NAMES (lower book))
                             book_names))
    | invalid => Exit invalid
    end.
Proof.
  revert invalid_books valid_books.
  induction book_names as [| book rest IH]; intros invalid_books valid_books.
  - cbn [validate_loop existsb filter map]. rewrite !app_nil_r.
    destruct invalid_books; reflexivity.
  - cbn [validate_loop existsb filter].
    destruct (String.eqb (lower book) "all"); cbn [orb]; [reflexivity |].
    destruct (dict_mem BOOK_NAMES (lower book)); cbn [negb].
    + rewrite IH. cbn [map]. rewrite <- app_assoc. reflexivity.
    + rewrite IH. rewrite <- app_assoc. cbn [app].
      destruct (existsb _ rest); [reflexivity |].
      destruct invalid_books; reflexivity.
Qed.

End Loop.

Section Files.

Variable path_exists : string -> bool.
Variable getsize : string -> Z.
Variable path_join : string -> string -> string.

(** The first loop of [download_books] on names that are in the tables. *)
Lemma select_files_known (output_dir : string) (force resume : bool)
      (book_names : list string) :
  Forall (fun k => key_ok k = true) book_names ->
  forall (files : list (string * string)) (skipped : Z),
  exists files' skipped',
    select_files path_exists getsize path_join output_dir force resume
                 book_names files skipped
    = Some (files', skipped') /\
    Z.of_nat (length files') + skipped'
    = Z.of_nat (length files) + skipped + Z.of_nat (length book_names) /\
    skipped <= skipped' /\
    (force || resume = true ->
     skipped' = skipped /\
     map snd files'
     = map snd files ++ map (fun k => (k ++ ".pdf")%string) book_names).
Proof.
  induction 1 as [| k rest Hk Hrest IH]; intros files skipped.
  - exists files, skipped. cbn [select_files length map].
    rewrite app_nil_r. repeat split; lia.
  - cbn [select_files]. unfold key_ok in Hk.
    destruct (dict_get BOOK_NAMES k) as [filename |]; [| discriminate].
    destruct (dict_get OUTPUT_NAMES k) as [output_name |]; [| discriminate].
    apply String.eqb_eq in Hk. subst output_name.
    destruct (path_exists (path_join output_dir (k ++ ".pdf"))
              && negb force && negb resume
              && (0 <? getsize (path_join output_dir (k ++ ".pdf"))))
      eqn:Hskip.
    + destruct (IH files (skipped + 1))
        as (files' & skipped' & -> & Hcount & Hle & Hforce).
      exists files', skipped'. split; [reflexivity |].
      split; [cbn [length]; lia |]. split; [lia |].
      intros Hfr. destruct force, resume; cbn in Hfr; try discriminate;
        rewrite ?andb_false_r in Hskip; cbn in Hskip; discriminate.
    + destruct (IH (files ++ [(filename, (k ++ ".pdf")%string)]) skipped)
        as (files' & skipped' & -> & Hcount & Hle & Hforce).
      exists files', skipped'. split; [reflexivity |].
      rewrite length_app in Hcount. cbn [length] in *.
      split; [lia |]. split; [lia |].
      intros Hfr. destruct (Hforce Hfr) as [-> Hnames].
      split; [reflexivity |].
      rewrite Hnames, map_app. cbn [map snd]. rewrite <- app_assoc.
      reflexivity.
Qed.

End Files.

(** Every name that [validate_books] returns passes the check of the
    tables. *)
Lemma validate_books_known (lower : string -> string)
      (book_names books : list string) :
  validate_books lower book_names = Return books ->
  Forall (fun k => key_ok k = true) books.
Proof.
  unfold validate_books. rewrite validate_loop_outcome. cbn [app].
  destruct (existsb _ book_names).
  - intros Heq. injection Heq as <-.
    apply Forall_forall. intros k Hin.
    pose proof keys_checked as Hall. rewrite forallb_forall in Hall.
    apply Hall. exact Hin.
  - destruct (filter (fun book => negb (dict_mem BOOK_NAMES (lower book)))
                     book_names); [| discriminate].
    intros Heq. injection Heq as <-.
    apply Forall_forall. intros k Hin.
    apply in_map_iff in Hin. destruct Hin as (book & <- & Hin).
    apply filter_In in Hin. destruct Hin as [_ Hmem].
    apply dict_mem_key_ok. exact Hmem.
Qed.

End DownloaderFacts.

(** X11: [validate_books] in closed form.  A name that lowers to [all]
    anywhere in the request returns every book, whatever else was asked
    for; otherwise the unknown names, if there are any, end the program, and
    if there are none the lowered names are returned in the order given. *)
Theorem validate_books_outcome
        (lower : string -> string) (book_names : list string) :
  Downloader.validate_books lower book_names =
  if existsb (fun book => String.eqb (lower book) "all") book_names
  then Downloader.Return (Downloader.keys Downloader.BOOK_NAMES)
  else
    match filter (fun book =>
                    negb (Downloader.dict_mem Downloader.BOOK_NAMES
                                              (lower book)))
                 book_names with
    | [] => Downloader.Return (map lower book_names)
    | invalid => Downloader.Exit invalid
    end.
Proof.
  unfold Downloader.validate_books.
  rewrite DownloaderFacts.validate_loop_outcome. cbn [app].
  destruct (existsb _ book_names); [reflexivity |].
  destruct (filter (fun book =>
                      negb (Downloader.dict_mem Downloader.BOOK_NAMES
                                                (lower book)))
                   book_names) eqn:Hinvalid; [| reflexivity].
  f_equal. f_equal.
  induction book_names as [| book rest IH]; [reflexivity |].
  cbn [filter] in *.
  destruct (Downloader.dict_mem Downloader.BOOK_NAMES (lower book));
    cbn [negb] in Hinvalid; [| discriminate].
  rewrite IH by assumption. reflexivity.
Qed.

(** X12: every list that [validate_books] returns is accepted by the first
    loop of [download_books]: no lookup in [BOOK_NAMES] or [OUTPUT_NAMES]
    fails, each book is either skipped or listed for download, and with
    [--force] or [--resume] nothing is skipped and the output names are the
    book names followed by [.pdf], in order. *)
Theorem validated_books_select
        (lower : string -> string)
        (path_exists : string -> bool) (getsize : string -> Z)
        (path_join : string -> string -> string)
        (output_dir : string) (force_redownload resume_existing : bool)
        (book_names books : list string) :
  Downloader.validate_books lower book_names = Downloader.Return books ->
  exists files skipped,
    Downloader.select_files path_exists getsize path_join output_dir
                            force_redownload resume_existing books [] 0
    = Some (files, skipped) /\
    Z.of_nat (length files) + skipped = Z.of_nat (length books) /\
    0 <= skipped /\
    (force_redownload || resume_existing = true ->
     skipped = 0 /\
     map snd files = map (fun k => (k ++ ".pdf")%string) books).
Proof.
  intros Hvalid.
  assert (Hknown : Forall (fun k => Downloader.key_ok k = true) books).
  { exact (DownloaderFacts.validate_books_known lower book_names books
             Hvalid). }
  destruct (DownloaderFacts.select_files_known path_exists getsize path_join
              output_dir force_redownload resume_existing books Hknown [] 0)
    as (files & skipped & Heq & Hcount & Hle & Hforce).
  exists files, skipped. split; [exact Heq |].
  cbn [length] in Hcount. split; [lia |]. split; [lia |].
  intros Hfr. destruct (Hforce Hfr) as [-> Hnames].
  split; [reflexivity | exact Hnames].
Qed.

Lemma validated_books_select_witness :
  exists files skipped,
    Downloader.select_files (fun _ => true) (fun _ => 5)
                            (fun d f => (d ++ "/" ++ f)%string) "out"
                            true false ["matthew"; "jude"]%string [] 0
    = Some (files, skipped) /\
    Z.of_nat (length files) + skipped
    = Z.of_nat (length ["matthew"; "jude"]%string) /\
    0 <= skipped /\
    (true || false = true ->
     skipped = 0 /\
     map snd files
     = map (fun k => (k ++ ".pdf")%string) ["matthew"; "jude"]%string).
Proof.
  apply (validated_books_select Downloader.ascii_lower (fun _ => true)
           (fun _ => 5) (fun d f => (d ++ "/" ++ f)%string) "out" true false
           ["Matthew"; "JUDE"]%string ["matthew"; "jude"]%string).
  vm_compute. reflexivity.
Defined.

(** ** [dataset.py]: the rows of a batch *)

Module DatasetFacts.

Import Dataset.

Lemma slice_prefix {A : Type} (l : list A) (n : Z) :
  0 <= n -> slice l 0 n = firstn (Z.to_nat n) l.
Proof.
  intros Hn. unfold slice, slice_bound.
  assert (H0 : (0 <? 0) = false) by reflexivity. rewrite H0.
  assert (Hneg : (n <? 0) = false) by (apply Z.ltb_ge; lia). rewrite Hneg.
  rewrite (Z.min_l 0) by lia. cbn [Z.to_nat skipn]. rewrite Z.sub_0_r.
  destruct (Z.le_ge_cases n (Z.of_nat (length l))) as [Hle | Hge].
  - rewrite Z.min_l by lia. reflexivity.
  - rewrite Z.min_r by lia. rewrite Nat2Z.id.
    rewrite firstn_all.
    rewrite firstn_all2 by (apply Nat2Z.inj_le; rewrite Z2Nat.id; lia).
    reflexivity.
Qed.

(** Truncating to [n] and padding up to [n]. *)
Lemma padded_row {A : Type} (l : list A) (p : A) (n : Z) :
  0 <= n ->
  let row := slice l 0 n
             ++ times p (n - Z.of_nat (length (slice l 0 n))) in
  Z.of_nat (length row) = n /\
  forall j, (j < Z.to_nat n)%nat -> nth j row p = nth j l p.
Proof.
  intros Hn. cbv zeta. rewrite slice_prefix by assumption.
  unfold times. split.
  - rewrite length_app, repeat_length, length_firstn. lia.
  - intros j Hj.
    destruct (Nat.lt_ge_cases j (length (firstn (Z.to_nat n) l)))
      as [Hin | Hout].
    + rewrite app_nth1 by assumption.
      rewrite length_firstn in Hin.
      rewrite <- (firstn_skipn (Z.to_nat n) l) at 2.
      rewrite app_nth1 by (rewrite length_firstn; lia). reflexivity.
    + rewrite app_nth2 by assumption.
      rewrite nth_repeat.
      rewrite length_firstn in Hout.
      rewrite nth_overflow by lia. reflexivity.
Qed.

End DatasetFacts.

(** X13: for a dataset whose [max_length] is not negative, [collate_fn]
    gives every sample a token row and a mask row of exactly [max_length]
    entries: the row agrees with the sample's list on the first
    [max_length] positions, and holds the padding value ([vocab['<pad>']],
    respectively 0) wherever the sample's list has ended; the length
    reported for the sample is capped at [max_length]. *)
Theorem collate_fn_rows
        (max_length pad : Z) (samples : list Dataset.sample)
        (i : nat) (sample : Dataset.sample) :
  0 <= max_length ->
  nth_error samples i = Some sample ->
  exists row mask,
    nth_error (Dataset.batch_input_tokens
                 (Dataset.collate_fn max_length pad samples)) i = Some row /\
    nth_error (Dataset.batch_error_mask
                 (Dataset.collate_fn max_length pad samples)) i = Some mask /\
    Z.of_nat (length row) = max_length /\
    Z.of_nat (length mask) = max_length /\
    (forall j, (j < Z.to_nat max_length)%nat ->
               nth j row pad = nth j (Dataset.input_tokens sample) pad /\
               nth j mask 0 = nth j (Dataset.error_mask sample) 0) /\
    nth_error (Dataset.batch_lengths
                 (Dataset.collate_fn max_length pad samples)) i
    = Some (Z.min (Dataset.sample_length sample) max_length) /\
    length (Dataset.batch_input_tokens
              (Dataset.collate_fn max_length pad samples))
    = length samples.
Proof.
  intros Hmax Hnth.
  unfold Dataset.collate_fn.
  cbn [Dataset.batch_input_tokens Dataset.batch_error_mask
       Dataset.batch_lengths].
  pose proof (DatasetFacts.padded_row (Dataset.input_tokens sample) pad
                max_length Hmax) as [Hlen_row Hrow].
  pose proof (DatasetFacts.padded_row (Dataset.error_mask sample) 0
                max_length Hmax) as [Hlen_mask Hmask].
  eexists. eexists.
  split; [apply map_nth_error; exact Hnth |].
  split; [apply map_nth_error; exact Hnth |].
  split; [exact Hlen_row |].
  split; [exact Hlen_mask |].
  split; [intros j Hj; split; [apply Hrow | apply Hmask]; exact Hj |].
  split; [| apply length_map].
  exact (map_nth_error
           (fun s => Z.min (Dataset.sample_length s) max_length) i samples
           Hnth).
Qed.

Lemma collate_fn_rows_witness :
  exists row mask,
    nth_error (Dataset.batch_input_tokens
                 (Dataset.collate_fn 4 0
                    [Dataset.Build_sample [5; 6] [0; 1] 2 "ab" "ab";
                     Dataset.Build_sample [5; 6; 7; 8; 9; 10]
                                          [0; 0; 1; 0; 0; 1] 6 "cd" "ce"]))
              1 = Some row /\
    nth_error (Dataset.batch_error_mask
                 (Dataset.collate_fn 4 0
                    [Dataset.Build_sample [5; 6] [0; 1] 2 "ab" "ab";
                     Dataset.Build_sample [5; 6; 7; 8; 9; 10]
                                          [0; 0; 1; 0; 0; 1] 6 "cd" "ce"]))
              1 = Some mask /\
    Z.of_nat (length row) = 4 /\
    Z.of_nat (length mask) = 4 /\
    (forall j, (j < Z.to_nat 4)%nat ->
               nth j row 0
               = nth j (Dataset.input_tokens
                          (Dataset.Build_sample [5; 6; 7; 8; 9; 10]
                                                [0; 0; 1; 0; 0; 1] 6
                                                "cd" "ce")) 0 /\
               nth j mask 0
               = nth j (Dataset.error_mask
                          (Dataset.Build_sample [5; 6; 7; 8; 9; 10]
                                                [0; 0; 1; 0; 0; 1] 6
                                                "cd" "ce")) 0) /\
    nth_error (Dataset.batch_lengths
                 (Dataset.collate_fn 4 0
                    [Dataset.Build_sample [5; 6] [0; 1] 2 "ab" "ab";
                     Dataset.Build_sample [5; 6; 7; 8; 9; 10]
                                          [0; 0; 1; 0; 0; 1] 6 "cd" "ce"]))
              1
    = Some (Z.min (Dataset.sample_length
                     (Dataset.Build_sample [5; 6; 7; 8; 9; 10]
                                           [0; 0; 1; 0; 0; 1] 6 "cd" "ce"))
                  4) /\
    length (Dataset.batch_input_tokens
              (Dataset.collate_fn 4 0
                 [Dataset.Build_sample [5; 6] [0; 1] 2 "ab" "ab";
                  Dataset.Build_sample [5; 6; 7; 8; 9; 10]
                                       [0; 0; 1; 0; 0; 1] 6 "cd" "ce"]))
    = length [Dataset.Build_sample [5; 6] [0; 1] 2 "ab" "ab";
              Dataset.Build_sample [5; 6; 7; 8; 9; 10]
                                   [0; 0; 1; 0; 0; 1] 6 "cd" "ce"].
Proof.
  apply (collate_fn_rows 4 0
           [Dataset.Build_sample [5; 6] [0; 1] 2 "ab" "ab";
            Dataset.Build_sample [5; 6; 7; 8; 9; 10]
                                 [0; 0; 1; 0; 0; 1] 6 "cd" "ce"]
           1%nat
           (Dataset.Build_sample [5; 6; 7; 8; 9; 10]
                                 [0; 0; 1; 0; 0; 1] 6 "cd" "ce")).
  - lia.
  - reflexivity.
Defined.

(** ** [tanaj/converter.py]: the chapters that [convert_book] writes *)

Module ConvertBookFacts.

Import Converter ConvertBook.

Lemma range_1_200 : py_range 1 200 1 = map Z.of_nat (seq 1 199).
Proof. vm_compute. reflexivity. Qed.

Lemma firstn_seq_min (j a k : nat) :
  firstn j (seq a k) = seq a (Nat.min j k).
Proof.
  revert a k. induction j as [| j IH]; intros a k; [reflexivity |].
  destruct k as [| k]; [reflexivity |].
  cbn [seq firstn Nat.min]. rewrite IH. reflexivity.
Qed.

Lemma seq_sorted (a n : nat) :
  StronglySorted Z.lt (map Z.of_nat (seq a n)).
Proof.
  revert a. induction n as [| n IH]; intros a; cbn [seq map].
  - constructor.
  - constructor; [apply IH |].
    apply Forall_forall. intros z Hz.
    apply in_map_iff in Hz. destruct Hz as (j & <- & Hj).
    apply in_seq in Hj. lia.
Qed.

Lemma filter_sorted (f : Z -> bool) (l : list Z) :
  StronglySorted Z.lt l -> StronglySorted Z.lt (filter f l).
Proof.
  induction 1 as [| x l Hl IH Hx]; cbn [filter]; [constructor |].
  destruct (f x); [| exact IH].
  constructor; [exact IH |].
  apply Forall_forall. intros y Hy. apply filter_In in Hy.
  rewrite Forall_forall in Hx. apply Hx. tauto.
Qed.

(** [sorted] leaves an increasing list as it is. *)
Lemma sorted_increasing (l : list Z) :
  StronglySorted Z.lt l -> sorted l = l.
Proof.
  induction 1 as [| x l Hl IH Hx]; [reflexivity |].
  cbn [sorted]. rewrite IH.
  destruct l as [| y rest]; [reflexivity |].
  cbn [insert]. inversion Hx as [| ? ? Hxy _]; subst.
  replace (x <=? y) with true by (symmetry; apply Z.leb_le; lia).
  reflexivity.
Qed.

Lemma dict_set_fresh (d : dict) (k : Z) (v : list verse) :
  ~ In k (dict_keys d) -> dict_set d k v = d ++ [(k, v)].
Proof.
  induction d as [| [k' v'] rest IH]; intros Hfresh; [reflexivity |].
  cbn [dict_set app]. cbn [dict_keys map fst In] in Hfresh.
  destruct (Z.eqb_spec k' k) as [-> | _]; [tauto |].
  rewrite IH; [reflexivity |]. unfold dict_keys. tauto.
Qed.

Lemma dict_get_app (d : dict) (k : Z) (v : list verse) :
  ~ In k (dict_keys d) -> dict_get (d ++ [(k, v)]) k = Some v.
Proof.
  induction d as [| [k' v'] rest IH]; intros Hfresh; cbn [app dict_get].
  - rewrite Z.eqb_refl. reflexivity.
  - cbn [dict_keys map fst In] in Hfresh.
    destruct (Z.eqb_spec k' k) as [-> | _]; [tauto |].
    apply IH. unfold dict_keys. tauto.
Qed.

Lemma keep_verses_app (chapter_data : list verse_data) (vs : list verse) :
  keep_verses chapter_data vs = vs ++ keep_verses chapter_data [].
Proof.
  revert vs. induction chapter_data as [| vd rest IH]; intros vs;
    cbn [keep_verses].
  - rewrite app_nil_r. reflexivity.
  - destruct ((0 <? get_verse vd) && negb (String.eqb (get_hebrew vd) ""));
      [| apply IH].
    rewrite IH. rewrite (IH ([] ++ _)). cbn [app].
    rewrite <- app_assoc. reflexivity.
Qed.

(** Every verse that is kept has a positive number and a text. *)
Lemma keep_verses_kept (chapter_data : list verse_data) :
  Forall (fun v => 0 < verse_number v /\ text_nikud v <> ""%string)
         (keep_verses chapter_data []).
Proof.
  induction chapter_data as [| vd rest IH]; cbn [keep_verses];
    [constructor |].
  destruct (0 <? get_verse vd) eqn:Hnum; cbn [andb]; [| exact IH].
  destruct (String.eqb (get_hebrew vd) "") eqn:Htext; cbn [negb];
    [exact IH |].
  rewrite keep_verses_app. cbn [app]. constructor; [| exact IH].
  cbn [verse_number text_nikud]. split.
  - apply Z.ltb_lt. exact Hnum.
  - apply String.eqb_neq. exact Htext.
Qed.

Section Book.

Variable HEBREW_NUMERALS : Z -> option string.
Variable chapter_exists : Z -> bool.
Variable json_load : Z -> option (list verse_data).

(** The files found are the chapters 1 to [k], where [k + 1] is the first
    chapter without a file. *)
Lemma find_chapter_files_seq (a n : nat) (chapter_files : list Z) :
  exists k : nat,
    (k <= n)%nat /\
    find_chapter_files chapter_exists (map Z.of_nat (seq a n)) chapter_files
    = chapter_files ++ map Z.of_nat (seq a k) /\
    (forall i, (a <= i < a + k)%nat -> chapter_exists (Z.of_nat i) = true) /\
    ((k < n)%nat -> chapter_exists (Z.of_nat (a + k)) = false).
Proof.
  revert a chapter_files.
  induction n as [| n IH]; intros a chapter_files.
  - exists 0%nat. cbn [seq map find_chapter_files].
    rewrite app_nil_r. repeat split; try lia.
  - cbn [seq map find_chapter_files].
    destruct (chapter_exists (Z.of_nat a)) eqn:Ha.
    + destruct (IH (S a) (chapter_files ++ [Z.of_nat a]))
        as (k & Hk & -> & Hall & Hstop).
      exists (S k). split; [lia |]. split.
      { cbn [seq map]. rewrite <- app_assoc. reflexivity. }
      split.
      * intros i Hi. destruct (Nat.eq_dec i a) as [-> | Hne];
          [exact Ha | apply Hall; lia].
      * intros Hlt. replace (a + S k)%nat with (S a + k)%nat by lia.
        apply Hstop. lia.
    + exists 0%nat. cbn [seq map]. rewrite app_nil_r.
      split; [lia |]. split; [reflexivity |]. split.
      * intros i Hi. lia.
      * intros _. rewrite Nat.add_0_r. exact Ha.
Qed.

Lemma group_verses_filter (chapter_files : list Z) (d : dict) :
  StronglySorted Z.lt chapter_files ->
  (forall k f, In k (dict_keys d) -> In f chapter_files -> k < f) ->
  group_verses chapter_exists json_load chapter_files d
  = d ++ map (fun n => (n, kept_verses chapter_exists json_load n))
             (filter (has_verses chapter_exists json_load) chapter_files).
Proof.
  intros Hsorted. revert d.
  induction Hsorted as [| n rest Hrest IH Hn]; intros d Hbelow.
  - cbn [group_verses filter map]. rewrite app_nil_r. reflexivity.
  - assert (Hbelow' : forall k f, In k (dict_keys d) -> In f rest -> k < f).
    { intros k f Hk Hf. apply Hbelow; [exact Hk | right; exact Hf]. }
    cbn [group_verses filter].
    destruct (load_chapter_data chapter_exists json_load n)
      as [[| vd data] |] eqn:Hload.
    + assert (Hhas : has_verses chapter_exists json_load n = false).
      { unfold has_verses, kept_verses. rewrite Hload. reflexivity. }
      rewrite Hhas. apply IH. exact Hbelow'.
    + destruct (keep_verses (vd :: data) []) as [| v vs] eqn:Hkeep.
      * assert (Hhas : has_verses chapter_exists json_load n = false).
        { unfold has_verses, kept_verses. rewrite Hload, Hkeep.
          reflexivity. }
        rewrite Hhas. apply IH. exact Hbelow'.
      * assert (Hkept : kept_verses chapter_exists json_load n = v :: vs).
        { unfold kept_verses. rewrite Hload, Hkeep. reflexivity. }
        assert (Hhas : has_verses chapter_exists json_load n = true).
        { unfold has_verses. rewrite Hkept. reflexivity. }
        rewrite Hhas.
        assert (Hfresh : ~ In n (dict_keys d)).
        { intros Hin. specialize (Hbelow n n Hin (or_introl eq_refl)). lia. }
        rewrite dict_set_fresh by exact Hfresh.
        rewrite IH.
        -- cbn [map]. rewrite <- app_assoc. cbn [app].
           rewrite Hkept. reflexivity.
        -- intros k f Hk Hf. unfold dict_keys in Hk.
           rewrite map_app in Hk. apply in_app_or in Hk.
           destruct Hk as [Hk | Hk].
           ++ apply Hbelow'; assumption.
           ++ cbn [map fst In] in Hk. destruct Hk as [<- | []].
              rewrite Forall_forall in Hn. apply Hn. exact Hf.
    + assert (Hhas : has_verses chapter_exists json_load n = false).
      { unfold has_verses, kept_verses. rewrite Hload. reflexivity. }
      rewrite Hhas. apply IH. exact Hbelow'.
Qed.

(** A numeral below 400 takes no further call. *)
Lemma numeral_defined (num : Z) :
  num < 400 ->
  exists numeral,
    number_to_hebrew_numeral HEBREW_NUMERALS num = Some numeral.
Proof.
  intros Hnum. unfold number_to_hebrew_numeral.
  cbn [number_to_hebrew_numeral_fuel].
  destruct (num <=? 0); [eexists; reflexivity |].
  destruct (HEBREW_NUMERALS num); [eexists; reflexivity |].
  destruct (100 <=? num) eqn:Hbig; [| eexists; reflexivity].
  apply Z.leb_le in Hbig.
  assert (Hd : num / 100 <= 4).
  { assert (num / 100 < 4) by (apply Z.div_lt_upper_bound; lia). lia. }
  replace (num / 100 <=? 4) with true by (symmetry; apply Z.leb_le; lia).
  eexists. reflexivity.
Qed.

Lemma build_chapters_keys (d : dict) (chapter_nums : list Z)
      (done : list chapter) :
  Forall (fun n => n < 400 /\
                   dict_get d n
                   = Some (kept_verses chapter_exists json_load n))
         chapter_nums ->
  exists chapters,
    build_chapters HEBREW_NUMERALS chapter_nums d done
    = Some (done ++ chapters) /\
    map number chapters = chapter_nums /\
    Forall (fun ch =>
              number_to_hebrew_numeral HEBREW_NUMERALS (number ch)
              = Some (hebrew_letter ch) /\
              verses ch = kept_verses chapter_exists json_load (number ch))
           chapters.
Proof.
  intros Hall. revert done.
  induction Hall as [| n rest [Hn Hget] Hrest IH]; intros done.
  - exists []. cbn [build_chapters map]. rewrite app_nil_r.
    repeat split. constructor.
  - cbn [build_chapters]. rewrite Hget.
    destruct (numeral_defined n Hn) as [numeral Hnumeral].
    rewrite Hnumeral.
    destruct (IH (done ++ [{| hebrew_letter := numeral; number := n;
                              verses := kept_verses chapter_exists
                                                    json_load n |}]))
      as (chapters & -> & Hnums & Hchs).
    eexists. split; [rewrite <- app_assoc; reflexivity |].
    cbn [app map number]. split; [rewrite Hnums; reflexivity |].
    constructor; [| exact Hchs].
    cbn [number hebrew_letter verses]. split; [exact Hnumeral | reflexivity].
Qed.

Lemma dict_get_map (l : list Z) (n : Z) :
  StronglySorted Z.lt l -> In n l ->
  dict_get (map (fun n => (n, kept_verses chapter_exists json_load n)) l) n
  = Some (kept_verses chapter_exists json_load n).
Proof.
  induction 1 as [| x l Hl IH Hx]; intros Hin; [destruct Hin |].
  cbn [map dict_get].
  destruct (Z.eqb_spec x n) as [-> | Hne]; [reflexivity |].
  destruct Hin as [-> | Hin]; [congruence |]. apply IH. exact Hin.
Qed.

(** The shape of every run of [convert_book] on a book that exists: the
    files found are the chapters 1 to [k], the chapters read are 1 to [m],
    and the chapters written are those of them that keep a verse. *)
Lemma convert_book_shape (name : string) (dry_run : bool) :
  exists (k m : nat) (chapters : list chapter),
    (k <= 199)%nat /\
    (forall i, (1 <= i <= k)%nat -> chapter_exists (Z.of_nat i) = true) /\
    ((k < 199)%nat -> chapter_exists (Z.of_nat (S k)) = false) /\
    m = (if dry_run then Nat.min 5 k else k) /\
    map number chapters
    = filter (has_verses chapter_exists json_load)
             (map Z.of_nat (seq 1 m)) /\
    Forall (fun ch =>
              number_to_hebrew_numeral HEBREW_NUMERALS (number ch)
              = Some (hebrew_letter ch) /\
              verses ch = kept_verses chapter_exists json_load (number ch))
           chapters /\
    convert_book HEBREW_NUMERALS chapter_exists json_load name true dry_run
    = match chapters with
      | [] => ReturnFalse
      | _ => Dump {| book_name := name; author := "";
                     publication_year := ""; chapters := chapters |}
      end.
Proof.
  unfold convert_book. cbn [negb]. rewrite range_1_200.
  destruct (find_chapter_files_seq 1 199 [])
    as (k & Hk & -> & Hall & Hstop). cbn [app].
  set (m := if dry_run then Nat.min 5 k else k).
  assert (Hfiles :
            (if dry_run then slice (map Z.of_nat (seq 1 k)) 0 5
             else map Z.of_nat (seq 1 k))
            = map Z.of_nat (seq 1 m)).
  { subst m. destruct dry_run; [| reflexivity].
    rewrite DatasetFacts.slice_prefix by lia.
    change (Z.to_nat 5) with 5%nat.
    rewrite firstn_map, firstn_seq_min. reflexivity. }
  assert (Hm : (m <= k)%nat) by (subst m; destruct dry_run; lia).
  set (kept := filter (has_verses chapter_exists json_load)
                      (map Z.of_nat (seq 1 m))).
  assert (Hkept_sorted : StronglySorted Z.lt kept).
  { apply filter_sorted, seq_sorted. }
  assert (Hgroup :
            group_verses chapter_exists json_load (map Z.of_nat (seq 1 m)) []
            = map (fun n => (n, kept_verses chapter_exists json_load n))
                  kept).
  { rewrite group_verses_filter; [reflexivity | apply seq_sorted |].
    intros ? ? []. }
  assert (Hkeys :
            dict_keys (map (fun n => (n, kept_verses chapter_exists
                                                     json_load n)) kept)
            = kept).
  { unfold dict_keys. rewrite map_map. cbn [fst]. apply map_id. }
  destruct (build_chapters_keys
              (map (fun n => (n, kept_verses chapter_exists json_load n))
                   kept) kept [])
    as (chapters & Hbuild & Hnums & Hchs).
  { apply Forall_forall. intros n Hn. split.
    - apply filter_In in Hn. destruct Hn as [Hn _].
      apply in_map_iff in Hn. destruct Hn as (j & <- & Hj).
      apply in_seq in Hj. lia.
    - apply dict_get_map; assumption. }
  cbn [app] in Hbuild.
  exists k, m, chapters.
  split; [exact Hk |].
  split; [intros i Hi; apply Hall; lia |].
  split; [intros Hlt; apply (Hstop Hlt) |].
  split; [reflexivity |].
  split; [exact Hnums |].
  split; [exact Hchs |].
  destruct (map Z.of_nat (seq 1 k)) as [| f files] eqn:Hseq.
  - assert (k = 0)%nat by (destruct k; [reflexivity | discriminate]).
    subst k. assert (m = 0)%nat by lia.
    assert (Hnil : kept = []) by (subst kept; replace m with 0%nat; reflexivity).
    rewrite Hnil in Hnums. destruct chapters; [reflexivity | discriminate].
  - rewrite Hfiles, Hgroup, Hkeys.
    rewrite sorted_increasing by exact Hkept_sorted.
    rewrite Hbuild. destruct chapters; reflexivity.
Qed.

(** What [convert_book] does with a book that exists: the chapters it
    writes are the chapters read that keep a verse, in increasing order. *)
Lemma convert_book_summary (name : string) (dry_run : bool) :
  exists chapters : list chapter,
    (forall n, In n (map number chapters) <->
               is_read chapter_exists dry_run n /\
               has_verses chapter_exists json_load n = true) /\
    StronglySorted Z.lt (map number chapters) /\
    Forall (fun ch =>
              number_to_hebrew_numeral HEBREW_NUMERALS (number ch)
              = Some (hebrew_letter ch) /\
              verses ch = kept_verses chapter_exists json_load (number ch))
           chapters /\
    convert_book HEBREW_NUMERALS chapter_exists json_load name true dry_run
    = match chapters with
      | [] => ReturnFalse
      | _ => Dump {| book_name := name; author := "";
                     publication_year := ""; chapters := chapters |}
      end.
Proof.
  destruct (convert_book_shape name dry_run)
    as (k & m & chapters & Hk & Hall & Hstop & Hm & Hnums & Hchs & Hrun).
  exists chapters.
  split; [| split; [rewrite Hnums; apply filter_sorted, seq_sorted |
                    split; [exact Hchs | exact Hrun]]].
  intros n. rewrite Hnums, filter_In, in_map_iff.
  assert (Hmk : (m <= k)%nat) by (subst m; destruct dry_run; lia).
  assert (Hdry : dry_run = true -> (m <= 5)%nat)
    by (intros ->; subst m; lia).
  split.
  - intros [(j & <- & Hj) Hhas]. apply in_seq in Hj.
    split; [| exact Hhas]. unfold is_read.
    split; [lia |]. split; [intros Hd; specialize (Hdry Hd); lia |].
    intros i Hi. rewrite <- (Z2Nat.id i) by lia. apply Hall. lia.
  - intros [(Hn & Hfive & Hfiles) Hhas]. split; [| exact Hhas].
    exists (Z.to_nat n). split; [apply Z2Nat.id; lia |].
    apply in_seq.
    assert (Hnk : (Z.to_nat n <= k)%nat).
    { destruct (Nat.le_gt_cases (Z.to_nat n) k) as [Hle | Hgt];
        [exact Hle |].
      assert (Hfalse : chapter_exists (Z.of_nat (S k)) = false)
        by (apply Hstop; lia).
      rewrite Hfiles in Hfalse by lia. discriminate. }
    assert (Hnm : (Z.to_nat n <= m)%nat).
    { subst m. destruct dry_run; [| exact Hnk].
      specialize (Hfive eq_refl). lia. }
    lia.
Qed.

(** A chapter that keeps a verse was loaded from its file. *)
Lemma has_verses_loaded (n : Z) :
  has_verses chapter_exists json_load n = true ->
  chapter_exists n = true /\
  kept_verses chapter_exists json_load n <> [] /\
  exists chapter_data,
    json_load n = Some chapter_data /\
    kept_verses chapter_exists json_load n = keep_verses chapter_data [].
Proof.
  unfold has_verses, kept_verses, load_chapter_data.
  destruct (chapter_exists n); cbn [negb]; [| discriminate].
  destruct (json_load n) as [chapter_data |]; [| discriminate].
  intros Hhas. split; [reflexivity |]. split.
  - destruct (keep_verses chapter_data []); [discriminate | discriminate].
  - exists chapter_data. split; reflexivity.
Qed.

End Book.

End ConvertBookFacts.

(** X14: whatever [convert_book] hands to [json.dump] is well formed: the
    chapters are not empty and come in strictly increasing order of their
    number; each is a chapter the run has read (its file and those of all
    chapters before it exist, its number is at most 199, and at most 5 in a
    dry run), carries the numeral of its number, and holds exactly the
    verses kept of its file, of which there is at least one, each with a
    positive number and a text that is not empty. *)
Theorem convert_book_chapters
        (HEBREW_NUMERALS : Z -> option string)
        (chapter_exists : Z -> bool)
        (json_load : Z -> option (list ConvertBook.verse_data))
        (name : string) (book_exists dry_run : bool)
        (data : ConvertBook.output_data) :
  ConvertBook.convert_book HEBREW_NUMERALS chapter_exists json_load
                           name book_exists dry_run
  = ConvertBook.Dump data ->
  ConvertBook.book_name data = name /\
  ConvertBook.chapters data <> [] /\
  StronglySorted Z.lt (map ConvertBook.number (ConvertBook.chapters data)) /\
  Forall
    (fun ch =>
       ConvertBook.is_read chapter_exists dry_run (ConvertBook.number ch) /\
       Converter.number_to_hebrew_numeral HEBREW_NUMERALS
                                          (ConvertBook.number ch)
       = Some (ConvertBook.hebrew_letter ch) /\
       ConvertBook.verses ch <> [] /\
       (exists chapter_data,
           json_load (ConvertBook.number ch) = Some chapter_data /\
           ConvertBook.verses ch
           = ConvertBook.keep_verses chapter_data []) /\
       Forall (fun v => 0 < ConvertBook.verse_number v /\
                        ConvertBook.text_nikud v <> ""%string)
              (ConvertBook.verses ch))
    (ConvertBook.chapters data).
Proof.
  destruct book_exists; [| discriminate].
  destruct (ConvertBookFacts.convert_book_summary HEBREW_NUMERALS
              chapter_exists json_load name dry_run)
    as (chapters & Hin & Hsorted & Hchs & ->).
  destruct chapters as [| ch0 chs] eqn:Hchapters; [discriminate |].
  rewrite <- Hchapters in *.
  intros Hdump. injection Hdump as <-.
  cbn [ConvertBook.book_name ConvertBook.chapters].
  split; [reflexivity |].
  split; [rewrite Hchapters; discriminate |].
  split; [exact Hsorted |].
  apply Forall_forall. intros ch Hch.
  rewrite Forall_forall in Hchs. destruct (Hchs ch Hch) as [Hnumeral Hverses].
  assert (Hnum : In (ConvertBook.number ch)
                    (map ConvertBook.number chapters))
    by (apply in_map; exact Hch).
  apply Hin in Hnum. destruct Hnum as [Hread Hhas].
  destruct (ConvertBookFacts.has_verses_loaded chapter_exists json_load
              _ Hhas)
    as (_ & Hnonempty & chapter_data & Hload & Hkept).
  split; [exact Hread |].
  split; [exact Hnumeral |].
  split; [rewrite Hverses; exact Hnonempty |].
  split; [exists chapter_data; split; [exact Hload | congruence] |].
  rewrite Hverses, Hkept. apply ConvertBookFacts.keep_verses_kept.
Qed.

Lemma convert_book_chapters_witness :
  ConvertBook.book_name ConvertBook.sample_output = "genesis"%string /\
  ConvertBook.chapters ConvertBook.sample_output <> [] /\
  StronglySorted Z.lt (map ConvertBook.number
                           (ConvertBook.chapters ConvertBook.sample_output))
  /\
  Forall
    (fun ch =>
       ConvertBook.is_read ConvertBook.sample_exists false
                           (ConvertBook.number ch) /\
       Converter.number_to_hebrew_numeral Converter.sample_numerals
                                          (ConvertBook.number ch)
       = Some (ConvertBook.hebrew_letter ch) /\
       ConvertBook.verses ch <> [] /\
       (exists chapter_data,
           ConvertBook.sample_load (ConvertBook.number ch)
           = Some chapter_data /\
           ConvertBook.verses ch
           = ConvertBook.keep_verses chapter_data []) /\
       Forall (fun v => 0 < ConvertBook.verse_number v /\
                        ConvertBook.text_nikud v <> ""%string)
              (ConvertBook.verses ch))
    (ConvertBook.chapters ConvertBook.sample_output).
Proof.
  apply (convert_book_chapters Converter.sample_numerals
           ConvertBook.sample_exists ConvertBook.sample_load
           "genesis" true false ConvertBook.sample_output).
  vm_compute. reflexivity.
Defined.




(** ** [soferim/evaluate.py]: the counters agree with the results *)

Module EvaluateFacts.

Import Evaluate.

Section Predictor.

Variable correction : Type.
Variable strip : string -> string.
Variable predict : string -> list correction.

Lemma verses_loop_consistent (book_name : string) (chapter_num : Z)
      (verses : list verse) (c : counters correction) :
  consistent predict book_name c ->
  consistent predict book_name
             (verses_loop strip predict book_name chapter_num verses c).
Proof.
  revert c. induction verses as [| verse rest IH]; intros c Hc;
    [exact Hc |].
  cbn [verses_loop].
  destruct (String.eqb (strip (text_nikud verse)) "") eqn:Htext;
    [apply IH; exact Hc |].
  apply IH. destruct Hc as (Htotal & Hwith & Hall).
  unfold consistent.
  cbn [results total_verses verses_with_corrections].
  rewrite length_app, filter_app, length_app. cbn [filter length].
  split; [lia |]. split.
  - cbn [requires_manual_review].
    destruct (0 <? Z.of_nat (length (predict (strip (text_nikud verse)))));
      cbn [length]; lia.
  - apply Forall_app. split; [exact Hall |].
    constructor; [| constructor].
    cbn [book original_text corrections requires_manual_review].
    split; [reflexivity |].
    split; [apply String.eqb_neq; exact Htext |].
    split; [reflexivity |].
    destruct (predict (strip (text_nikud verse))); cbn [length].
    + split; [discriminate | congruence].
    + split; [discriminate | reflexivity].
Qed.

Lemma verses_loop_texts (book_name : string) (chapter_num : Z)
      (verses : list verse) (c : counters correction) :
  map (@original_text correction)
      (results (verses_loop strip predict book_name chapter_num verses c))
  = map (@original_text correction) (results c)
    ++ filter (fun text => negb (String.eqb text ""))
              (map (fun verse => strip (text_nikud verse)) verses).
Proof.
  revert c. induction verses as [| verse rest IH]; intros c.
  - cbn [verses_loop map filter]. rewrite app_nil_r. reflexivity.
  - cbn [verses_loop map filter].
    destruct (String.eqb (strip (text_nikud verse)) ""); cbn [negb];
      [apply IH |].
    rewrite IH. cbn [results]. rewrite map_app. cbn [map original_text].
    rewrite <- app_assoc. reflexivity.
Qed.

Lemma chapters_loop_consistent (book_name : string)
      (chapters : list chapter) (c : counters correction) :
  consistent predict book_name c ->
  consistent predict book_name
             (chapters_loop strip predict book_name chapters c).
Proof.
  revert c. induction chapters as [| chapter rest IH]; intros c Hc;
    [exact Hc |].
  cbn [chapters_loop]. apply IH, verses_loop_consistent, Hc.
Qed.

Lemma chapters_loop_texts (book_name : string) (chapters : list chapter)
      (c : counters correction) :
  map (@original_text correction)
      (results (chapters_loop strip predict book_name chapters c))
  = map (@original_text correction) (results c)
    ++ filter (fun text => negb (String.eqb text ""))
              (stripped_texts strip chapters).
Proof.
  revert c. induction chapters as [| chapter rest IH]; intros c.
  - cbn [chapters_loop]. unfold stripped_texts. cbn [flat_map map filter].
    rewrite app_nil_r. reflexivity.
  - cbn [chapters_loop]. rewrite IH, verses_loop_texts.
    unfold stripped_texts. cbn [flat_map].
    rewrite map_app, filter_app, <- app_assoc. reflexivity.
Qed.

End Predictor.

End EvaluateFacts.

(** X17: whatever the predictor and the book, the counters that
    [evaluate_book] reports agree with the results it lists:
    [total_verses] is the number of results, [verses_with_corrections] is
    the number of results marked for manual review and so never exceeds
    [total_verses]; the results are, in order, the verses whose stripped
    text is not empty, each under the book name, with the corrections
    predicted for that text, and marked for review exactly when there is a
    correction. *)
Theorem evaluate_book_counts
        (correction : Type) (strip : string -> string)
        (predict : string -> list correction)
        (book_name : string) (chapters : list Evaluate.chapter) :
  let output := Evaluate.evaluate_book strip predict book_name chapters in
  Evaluate.total_verses output
  = Z.of_nat (length (Evaluate.results output)) /\
  Evaluate.verses_with_corrections output
  = Z.of_nat (length (filter (@Evaluate.requires_manual_review correction)
                             (Evaluate.results output))) /\
  0 <= Evaluate.verses_with_corrections output
    <= Evaluate.total_verses output /\
  map (@Evaluate.original_text correction) (Evaluate.results output)
  = filter (fun text => negb (String.eqb text ""))
           (Evaluate.stripped_texts strip chapters) /\
  Forall (fun r =>
            Evaluate.book r = book_name /\
            Evaluate.corrections r = predict (Evaluate.original_text r) /\
            (Evaluate.requires_manual_review r = true <->
             Evaluate.corrections r <> []))
         (Evaluate.results output).
Proof.
  cbv zeta. unfold Evaluate.evaluate_book.
  set (start := {| Evaluate.results := [];
                   Evaluate.total_verses := 0;
                   Evaluate.verses_with_corrections := 0 |}).
  assert (Hstart : Evaluate.consistent predict book_name start).
  { unfold Evaluate.consistent. subst start.
    cbn [Evaluate.results Evaluate.total_verses
         Evaluate.verses_with_corrections filter length].
    split; [reflexivity |]. split; [reflexivity | constructor]. }
  pose proof (EvaluateFacts.chapters_loop_consistent correction strip predict
                book_name chapters start Hstart)
    as (Htotal & Hwith & Hall).
  pose proof (EvaluateFacts.chapters_loop_texts correction strip predict
                book_name chapters start) as Htexts.
  split; [exact Htotal |]. split; [exact Hwith |].
  split.
  - rewrite Htotal, Hwith.
    pose proof (filter_length_le (@Evaluate.requires_manual_review correction)
                  (Evaluate.results
                     (Evaluate.chapters_loop strip predict book_name
                                             chapters start))).
    lia.
  - split; [exact Htexts |].
    eapply Forall_impl; [| exact Hall].
    intros r (Hbook & _ & Hcorr & Hreview). repeat split; tauto.
Qed.
